(** * Object pool pattern: [Reusable], [ReusablePool] and [PoolManager]

    A shallow embedding of [Patterns/Object Pool Pattern/app.py] and
    [app_with_context.py].  Both files define the same [ReusablePool]
    class (the local variable of [acquire] is called [reusable] in one
    and [obj] in the other); [app_with_context.py] adds the context
    manager [PoolManager].

    Python objects are compared by identity ([Reusable] defines neither
    [__eq__] nor [__hash__]), so an instance is modelled by the address
    it was allocated at.  The two lists [free] and [in_use] are assigned
    in the class body, not in [__init__]: they belong to the class object
    and every instance reaches them through attribute lookup. *)

From Stdlib Require Import ZArith List String Lia.
From stdpp Require Import base list gmap strings.
Import ListNotations.
Open Scope Z_scope.
Open Scope nat_scope.

(** ** Values, exceptions and the interpreter state *)

(** The Python values that flow through the pool: [None] (the initial
    [PoolManager.obj]) and instances of [Reusable]. *)
Inductive pyobj : Type :=
  | PyNone
  | Reusable_at (addr : nat).

#[global] Instance pyobj_eq_dec : EqDecision pyobj.
Proof. solve_decision. Defined.

(** The exceptions the modelled code can raise: the explicit
    [raise Exception(...)] of [acquire], [ValueError] from [list.remove]
    and [IndexError] from list indexing. *)
Inductive exn : Type :=
  | Exception (msg : string)
  | ValueError (msg : string)
  | IndexError (msg : string).

Inductive result (A : Type) : Type :=
  | Return (a : A)
  | Raise (e : exn).
Arguments Return {A} a.
Arguments Raise {A} e.

(** The methods class [Reusable] defines. *)
Inductive Reusable_method : Type :=
  | test.

(** The interpreter state: the two class-level lists of [ReusablePool],
    the next unused address, and the record of every method invoked on a
    [Reusable] instance (in order). *)
Record world : Type := World {
  free : list pyobj;
  in_use : list pyobj;
  next_addr : nat;
  invoked : list (pyobj * Reusable_method)
}.

(** The state right after the class statement has run:
    [free: List = []], [in_use: List = []]. *)
Definition class_defined : world :=
  {| free := []; in_use := []; next_addr := 0; invoked := [] |}.

(** ** A state-and-exception monad

    An exception does not roll the state back, so a computation returns
    its outcome together with the state it reached. *)
Definition M (A : Type) : Type := world -> result A * world.

Definition ret {A} (a : A) : M A := fun w => (Return a, w).

Definition raise {A} (e : exn) : M A := fun w => (Raise e, w).

Definition bind {A B} (m : M A) (k : A -> M B) : M B :=
  fun w =>
    match m w with
    | (Return a, w') => k a w'
    | (Raise e, w') => (Raise e, w')
    end.

Notation "'do' x <- m ; k" := (bind m (fun x => k))
  (at level 10, x name, m at level 100, k at level 200).
Notation "'do_' m ; k" := (bind m (fun _ => k))
  (at level 10, m at level 100, k at level 200).

(** ** Python list primitives *)

(** [l.remove(x)]: drops the first item equal to [x]; [None] stands for
    the [ValueError] Python raises when there is none. *)
Fixpoint list_remove (x : pyobj) (l : list pyobj) : option (list pyobj) :=
  match l with
  | [] => None
  | y :: l' =>
      if decide (y = x) then Some l'
      else match list_remove x l' with
           | Some r => Some (y :: r)
           | None => None
           end
  end.

Definition remove_error : exn := ValueError "list.remove(x): x not in list".
Definition index_error : exn := IndexError "list index out of range".

(** [len(self.free)] *)
Definition len_free : M nat := fun w => (Return (length (free w)), w).

(** [self.free[i]] *)
Definition free_getitem (i : nat) : M pyobj :=
  fun w =>
    match free w !! i with
    | Some o => (Return o, w)
    | None => (Raise index_error, w)
    end.

(** [self.free.remove(o)] *)
Definition free_remove (o : pyobj) : M unit :=
  fun w =>
    match list_remove o (free w) with
    | Some l => (Return tt, {| free := l; in_use := in_use w;
                               next_addr := next_addr w; invoked := invoked w |})
    | None => (Raise remove_error, w)
    end.

(** [self.free.append(o)] *)
Definition free_append (o : pyobj) : M unit :=
  fun w => (Return tt, {| free := free w ++ [o]; in_use := in_use w;
                          next_addr := next_addr w; invoked := invoked w |}).

(** [self.in_use.remove(o)] *)
Definition in_use_remove (o : pyobj) : M unit :=
  fun w =>
    match list_remove o (in_use w) with
    | Some l => (Return tt, {| free := free w; in_use := l;
                               next_addr := next_addr w; invoked := invoked w |})
    | None => (Raise remove_error, w)
    end.

(** [self.in_use.append(o)] *)
Definition in_use_append (o : pyobj) : M unit :=
  fun w => (Return tt, {| free := free w; in_use := in_use w ++ [o];
                          next_addr := next_addr w; invoked := invoked w |}).

(** ** class Reusable *)
Module Reusable.

(** [Reusable()]: a new instance, distinct from every live object. *)
Definition new : M pyobj :=
  fun w => (Return (Reusable_at (next_addr w)),
            {| free := free w; in_use := in_use w;
               next_addr := S (next_addr w); invoked := invoked w |}).

(** [test(self)]: prints the instance's id; the call is recorded. *)
Definition test (self : pyobj) : M unit :=
  fun w => (Return tt, {| free := free w; in_use := in_use w;
                          next_addr := next_addr w;
                          invoked := invoked w ++ [(self, test)] |}).

End Reusable.

(** ** class ReusablePool *)
Module ReusablePool.

(** The instance dictionary: [__init__] assigns [self.size] and nothing
    else, so [size] is the only per-instance attribute. *)
Record t : Type := Instance { size : Z }.

(** [self.free] and [self.in_use] are not in the instance dictionary;
    attribute lookup falls through to the class, whatever [self] is. *)
Definition get_free (self : t) (w : world) : list pyobj := free w.
Definition get_in_use (self : t) (w : world) : list pyobj := in_use w.

(** [for _ in range(size): self.free.append(Reusable())], with the
    number of iterations already computed. *)
Fixpoint fill (n : nat) : M unit :=
  match n with
  | O => ret tt
  | S n' =>
      do o <- Reusable.new;
      do_ free_append o;
      fill n'
  end.

(** [__init__(self, size)]; [range(size)] is empty for [size <= 0]. *)
Definition __init__ (size : Z) : M t :=
  let self := {| size := size |} in
  do_ fill (Z.to_nat size);
  ret self.

(** [acquire(self)] *)
Definition acquire (self : t) : M pyobj :=
  do n <- len_free;
  if (n <=? 0)%nat then raise (Exception "No more objects are available.")
  else
    do reusable <- free_getitem 0;
    do_ free_remove reusable;
    do_ in_use_append reusable;
    ret reusable.

(** [release(self, reusable)] *)
Definition release (self : t) (reusable : pyobj) : M unit :=
  do_ in_use_remove reusable;
  free_append reusable.

End ReusablePool.

(** ** class PoolManager (app_with_context.py) *)
Module PoolManager.

(** The instance dictionary: [self.pool] and [self.obj]. *)
Record t : Type := Instance { pool : ReusablePool.t; obj : pyobj }.

(** [__init__(self, pool)] *)
Definition __init__ (pool : ReusablePool.t) : t :=
  {| pool := pool; obj := PyNone |}.

(** [__enter__(self)]: the manager is a mutable object, so the updated
    manager is returned next to the value of the call.  When [acquire]
    raises, the assignment to [self.obj] does not happen. *)
Definition __enter__ (self : t) : M (t * pyobj) :=
  do o <- ReusablePool.acquire (pool self);
  let self' := {| pool := pool self; obj := o |} in
  ret (self', obj self').

(** [__exit__(self, type, value, traceback)]: the three arguments (here
    the exception in flight, if any) are not looked at; the method falls
    off its end and so returns [None]. *)
Definition __exit__ (self : t) (exc : option exn) : M pyobj :=
  do_ ReusablePool.release (pool self) (obj self);
  ret PyNone.

End PoolManager.

(** Truth value of an object: [None] is false, an instance of a class
    without [__bool__] and [__len__] is true. *)
Definition truthy (o : pyobj) : bool :=
  match o with
  | PyNone => false
  | Reusable_at _ => true
  end.

(** [with PoolManager(pool) as r_pool: body].  [__enter__] runs first and
    an exception from it propagates without [__exit__] being called.
    Then the body runs; [__exit__] is called once whether the body
    finished or raised, and an exception of the body is re-raised unless
    [__exit__] returned a true value. *)
Definition with_PoolManager (pool : ReusablePool.t) (body : pyobj -> M unit)
  : M unit :=
  fun w =>
    let mgr := PoolManager.__init__ pool in
    match PoolManager.__enter__ mgr w with
    | (Raise e, w1) => (Raise e, w1)
    | (Return (mgr1, r_pool), w1) =>
        match body r_pool w1 with
        | (Return _, w2) =>
            match PoolManager.__exit__ mgr1 None w2 with
            | (Return _, w3) => (Return tt, w3)
            | (Raise e', w3) => (Raise e', w3)
            end
        | (Raise e, w2) =>
            match PoolManager.__exit__ mgr1 (Some e) w2 with
            | (Return suppress, w3) =>
                if truthy suppress then (Return tt, w3) else (Raise e, w3)
            | (Raise e', w3) => (Raise e', w3)
            end
        end
    end.

(** ** Sequences of calls *)

(** A call on a pool object. *)
Inductive call : Type :=
  | Acquire
  | Release (o : pyobj).

(** The state a call leaves behind, whether it returned or raised. *)
Definition after_call (self : ReusablePool.t) (c : call) (w : world) : world :=
  match c with
  | Acquire => snd (ReusablePool.acquire self w)
  | Release o => snd (ReusablePool.release self o w)
  end.

(** What a client of the module can do: construct a pool, call a method
    of a pool, construct a [Reusable] of its own, call [test]. *)
Inductive op : Type :=
  | Construct (size : Z)
  | Invoke (self : ReusablePool.t) (c : call)
  | Allocate
  | Test (o : pyobj).

Definition after_op (o : op) (w : world) : world :=
  match o with
  | Construct size => snd (ReusablePool.__init__ size w)
  | Invoke self c => after_call self c w
  | Allocate => snd (Reusable.new w)
  | Test r => snd (Reusable.test r w)
  end.

(** The states observed after each step of a sequence, in order. *)
Fixpoint observed {A} (step : A -> world -> world) (l : list A) (w : world)
  : list world :=
  match l with
  | [] => []
  | a :: l' => let w' := step a w in w' :: observed step l' w'
  end.

(** The state a sequence ends in. *)
Definition final {A} (step : A -> world -> world) (l : list A) (w : world)
  : world :=
  fold_left (fun w a => step a w) l w.

(** How many method invocations on [o] the state has recorded. *)
Definition invocations_on (o : pyobj) (w : world) : nat :=
  length (filter (fun p => bool_decide (p.1 = o)) (invoked w)).

(** The number of objects the two lists hold. *)
Definition held (w : world) : nat := length (free w) + length (in_use w).

(** An object that has been allocated: an instance whose address is
    below the next unused one. *)
Definition allocated (w : world) (o : pyobj) : Prop :=
  match o with
  | PyNone => False
  | Reusable_at a => a < next_addr w
  end.

(** The bookkeeping invariant: the two lists together hold each object
    at most once, and only allocated instances. *)
Definition well_formed (w : world) : Prop :=
  NoDup (free w ++ in_use w) /\ Forall (allocated w) (free w ++ in_use w).

(** ** The module-level scripts *)

(** app.py, lines 47 to 57: returns [(r, r2, r3)]. *)
Definition app_script : M (pyobj * pyobj * pyobj) :=
  do pool <- ReusablePool.__init__ 2;
  do r <- ReusablePool.acquire pool;
  do r2 <- ReusablePool.acquire pool;
  do_ ReusablePool.release pool r2;
  do_ Reusable.test r;
  do_ Reusable.test r2;
  do r3 <- ReusablePool.acquire pool;
  do_ Reusable.test r3;
  ret (r, r2, r3).

(** app_with_context.py, lines 85 to 91. *)
Definition app_with_context_script : M unit :=
  do pool <- ReusablePool.__init__ 2;
  do_ with_PoolManager pool (fun r_pool => Reusable.test r_pool);
  do_ with_PoolManager pool (fun r_pool => Reusable.test r_pool);
  with_PoolManager pool (fun r_pool => Reusable.test r_pool).

(** ** Test scenarios *)

(** [try: m / except Exception as e: ...]: the outcome of [m], caught. *)
Definition attempt {A} (m : M A) : M (result A) :=
  fun w => let (r, w') := m w in (Return r, w').

(** [len(self.in_use)] *)
Definition len_in_use : M nat := fun w => (Return (length (in_use w)), w).

(** Capacity 2: acquire [a], acquire [b], try to acquire [c], release
    [a], acquire [d], release [b], release [d]; returns the four outcomes
    and the final lengths of [free] and [in_use]. *)
Definition scenario_capacity_2
  : M (pyobj * pyobj * result pyobj * pyobj * nat * nat) :=
  do pool <- ReusablePool.__init__ 2;
  do a <- ReusablePool.acquire pool;
  do b <- ReusablePool.acquire pool;
  do c <- attempt (ReusablePool.acquire pool);
  do_ ReusablePool.release pool a;
  do d <- ReusablePool.acquire pool;
  do_ ReusablePool.release pool b;
  do_ ReusablePool.release pool d;
  do nf <- len_free;
  do nu <- len_in_use;
  ret (a, b, c, d, nf, nu).

(** The objects that the [acquire] calls of a sequence returned, in the
    order of the calls; a call that raised contributes nothing. *)
Fixpoint acquired (self : ReusablePool.t) (cs : list call) (w : world)
  : list pyobj :=
  match cs with
  | [] => []
  | c :: cs' =>
      let rest := acquired self cs' (after_call self c w) in
      match c with
      | Acquire =>
          match fst (ReusablePool.acquire self w) with
          | Return o => o :: rest
          | Raise _ => rest
          end
      | Release _ => rest
      end
  end.

(** [k] [with] statements one after the other, as in lines 86 to 91 of
    app_with_context.py. *)
Fixpoint with_blocks (k : nat) (pool : ReusablePool.t) (body : pyobj -> M unit)
  : M unit :=
  match k with
  | O => ret tt
  | S k' => do_ with_PoolManager pool body; with_blocks k' pool body
  end.

#[global] Instance pyobj_inhabited : Inhabited pyobj := populate PyNone.

(** What taking the first item of a list and appending it again does to
    the list. *)
Definition requeue (l : list pyobj) : list pyobj :=
  match l with
  | [] => []
  | o :: l' => l' ++ [o]
  end.

(** * The other patterns of the repository *)

(** The outcome of a call in the two models below, over the exceptions
    [E] of the model. *)
Inductive outcome (E A : Type) : Type :=
  | Returned (a : A)
  | Raised (e : E).
Arguments Returned {E A} a.
Arguments Raised {E A} e.

(** ** Anti-pattern/Singleton/singleton.py *)
Module Singleton.

Section metaclass.
(** The classes whose metaclass is [Singleton] (dictionary keys, compared
    by identity), objects, the arguments of a call, the exceptions, and
    the part of the interpreter state that is not the dictionary. *)
Context {class object args heap E : Type} `{Countable class}.

(** The exception of a failed dictionary subscription. *)
Context (KeyError : E).

(** [_instances = {}] is assigned in the body of the metaclass: one
    dictionary for all classes. *)
Record state : Type := State {
  _instances : gmap class object;
  rest : heap
}.

(** [super(Singleton, cls).__call__] with the arguments of the call, that
    is [type.__call__]: it runs [cls.__new__] and [cls.__init__], code this
    file does not fix, so it is a parameter that may do anything to the
    state. *)
Context (type_call : class -> args -> state -> outcome E object * state).

(** [cls._instances[cls]] *)
Definition getitem (cls : class) (st : state) : outcome E object * state :=
  match _instances st !! cls with
  | Some o => (Returned o, st)
  | None => (Raised KeyError, st)
  end.

(** [__call__] of the metaclass, on [cls] and the arguments of the call
    [a].  The right-hand side of the
    assignment is evaluated first; the item is set in the dictionary as
    it is after that. *)
Definition __call__ (cls : class) (a : args) (st : state)
  : outcome E object * state :=
  if decide (cls ∉ dom (_instances st)) then
    match type_call cls a st with
    | (Returned o, st1) =>
        getitem cls {| _instances := <[cls := o]> (_instances st1);
                       rest := rest st1 |}
    | (Raised e, st1) => (Raised e, st1)
    end
  else getitem cls st.

(** The state after a sequence of calls of classes, whatever each of
    them returned or raised. *)
Definition after_calls (calls : list (class * args)) (st : state) : state :=
  fold_left (fun st c => snd (__call__ c.1 c.2 st)) calls st.

End metaclass.

(** The exceptions of the model with plain classes. *)
Inductive error : Type :=
  | KeyError
  | TypeError (msg : string).

(** The heap of the model with plain classes: the next unused address
    and what was printed. *)
Record plain_heap : Type := Heap {
  next_object : nat;
  printed : list string
}.

(** [type.__call__] for a class that, like [Logger], defines neither
    [__new__] nor [__init__]: called with arguments ([nargs] of them,
    positional or keyword) it raises [TypeError], without arguments it
    returns a new object.  A class is given by its name. *)
Definition plain_call (cls : string) (nargs : nat) (st : @state string nat plain_heap _ _)
  : outcome error nat * @state string nat plain_heap _ _ :=
  if (nargs =? 0)%nat then
    (Returned (next_object (rest st)),
     {| _instances := _instances st;
        rest := {| next_object := S (next_object (rest st));
                   printed := printed (rest st) |} |})
  else (Raised (TypeError (cls ++ "() takes no arguments")), st).

(** [class Logger(metaclass=Singleton)] *)
Definition Logger : string := "Logger".

(** Calling [Logger] and, more generally, a plain class whose metaclass
    is [Singleton], with [nargs] arguments. *)
Definition call_plain (cls : string) (nargs : nat) :=
  __call__ KeyError plain_call cls nargs.

(** [Logger.log(self, msg)]: [print(msg)]. *)
Definition log (self : nat) (msg : string) (st : @state string nat plain_heap _ _)
  : @state string nat plain_heap _ _ :=
  {| _instances := _instances st;
     rest := {| next_object := next_object (rest st);
                printed := printed (rest st) ++ [msg] |} |}.

(** The state when the module has been imported up to line 40. *)
Definition initial : @state string nat plain_heap _ _ :=
  {| _instances := ∅; rest := {| next_object := 0; printed := [] |} |}.

(** One instance per class: as many objects were created as there are
    registered classes, every registered instance is one of them, and no
    two classes share one. *)
Definition one_per_class (st : @state string nat plain_heap _ _) : Prop :=
  next_object (rest st) = size (_instances st)
  /\ (forall c o, _instances st !! c = Some o -> o < next_object (rest st))
  /\ (forall c1 c2 o, _instances st !! c1 = Some o ->
                      _instances st !! c2 = Some o -> c1 = c2).

End Singleton.

(** ** Patterns/Factory/Bad.py and Better.py

    Both files define the same exporter classes; they differ in how
    [main] chooses the exporters. *)
Module Factory.

(** Standard input as the lines still to be read, standard output as the
    pieces written so far. *)
Record console : Type := Console {
  stdin : list string;
  stdout : list string
}.

Inductive error : Type :=
  | EOFError
  | KeyError (key : string).

Definition newline : string := String (Ascii.ascii_of_nat 10) EmptyString.

(** [input(prompt)]: writes the prompt, then reads a line without its
    newline; at the end of the input it raises [EOFError]. *)
Definition input (prompt : string) (c : console)
  : outcome error string * console :=
  match stdin c with
  | [] => (Raised EOFError, {| stdin := []; stdout := stdout c ++ [prompt] |})
  | line :: rest =>
      (Returned line, {| stdin := rest; stdout := stdout c ++ [prompt] |})
  end.

(** [print(s)] *)
Definition print (s : string) (c : console) : console :=
  {| stdin := stdin c; stdout := stdout c ++ [(s ++ newline)%string] |}.

(** [pathlib.Path(s)] *)
Inductive path : Type :=
  | Path (s : string).

(** The concrete exporter classes.  An instance has no attributes and is
    never compared, so it is given by its class. *)
Inductive exporter : Type :=
  | LossLessVideoExporter
  | H264BPVideoExporter
  | H264Hi422PVideoExporter
  | AACAudioExporter
  | WAVAudioExporter.

(** [prepare_export(self, data)], by the class of [self]. *)
Definition prepare_export (self : exporter) (data : string)
  : console -> console :=
  match self with
  | LossLessVideoExporter => print "Preparing video data for lossless export."
  | H264BPVideoExporter =>
      print "Preparing video data for H.264 (Baseline) export."
  | H264Hi422PVideoExporter =>
      print "Preparing video data for H.264 (Hi422P) export."
  | AACAudioExporter => print "Preparing audio data for AAC export."
  | WAVAudioExporter => print "Preparing audio data for WAV export."
  end.

(** [do_export(self, folder)], by the class of [self]; [str] is
    [str(folder)], which depends on the platform. *)
Definition do_export (str : path -> string) (self : exporter) (folder : path)
  : console -> console :=
  match self with
  | LossLessVideoExporter =>
      print ("Exporting video data in lossless format to "
             ++ str folder ++ ".")
  | H264BPVideoExporter =>
      print ("Exporting video data in H.264 (Baseline) format to "
             ++ str folder ++ ".")
  | H264Hi422PVideoExporter =>
      print ("Exporting video data in H.264 (Hi422P) format to "
             ++ str folder ++ ".")
  | AACAudioExporter =>
      print ("Exporting audio data in AAC format to " ++ str folder ++ ".")
  | WAVAudioExporter =>
      print ("Exporting audio data in WAV format to " ++ str folder ++ ".")
  end.

Definition prompt : string :=
  "Entre desired output quality (low, high, master): ".

(** [f"Unknown output quality options: {export_quality}."] *)
Definition unknown (export_quality : string) : string :=
  "Unknown output quality options: " ++ export_quality ++ ".".

(** *** Bad.py *)
Module Bad.

(** [{"low", "high", "master"}] *)
Definition qualities : gset string := {[ "low"; "high"; "master" ]}.

(** The [while True] loop of [main], lines 114 to 119, by recursion on
    the lines still to be read ([written] is what standard output holds):
    [input], then [break] or [print]. *)
Fixpoint read_quality (lines : list string) (written : list string)
  : outcome error string * console :=
  match lines with
  | [] => (Raised EOFError, {| stdin := []; stdout := written ++ [prompt] |})
  | export_quality :: rest =>
      if decide (export_quality ∈ qualities) then
        (Returned export_quality,
         {| stdin := rest; stdout := written ++ [prompt] |})
      else
        read_quality rest
          ((written ++ [prompt]) ++ [(unknown export_quality ++ newline)%string])
  end.

(** [main()] *)
Definition main (str : path -> string) (c : console)
  : outcome error unit * console :=
  match read_quality (stdin c) (stdout c) with
  | (Raised e, c1) => (Raised e, c1)
  | (Returned export_quality, c1) =>
      let '(video_exporter, audio_exporter) :=
        if decide (export_quality = "low") then
          (H264BPVideoExporter, AACAudioExporter)
        else if decide (export_quality = "high") then
          (H264Hi422PVideoExporter, AACAudioExporter)
        else
          (LossLessVideoExporter, WAVAudioExporter) in
      let c2 := prepare_export video_exporter "placeholder_for_video_data" c1 in
      let c3 := prepare_export audio_exporter "placeholder_for_audio_data" c2 in
      let folder := Path "/usr/tmp/video" in
      let c4 := do_export str video_exporter folder c3 in
      let c5 := do_export str audio_exporter folder c4 in
      (Returned tt, c5)
  end.

End Bad.

(** *** Better.py *)
Module Better.

(** The concrete factory classes; an instance is given by its class. *)
Inductive factory : Type :=
  | FastExporter
  | HighQualityExporter
  | MasterQualityExporter.

Definition get_video_exporter (self : factory) : exporter :=
  match self with
  | FastExporter => H264BPVideoExporter
  | HighQualityExporter => H264Hi422PVideoExporter
  | MasterQualityExporter => LossLessVideoExporter
  end.

Definition get_audio_exporter (self : factory) : exporter :=
  match self with
  | FastExporter => AACAudioExporter
  | HighQualityExporter => AACAudioExporter
  | MasterQualityExporter => WAVAudioExporter
  end.

(** The dictionary [factories] of [read_exporter]. *)
Definition factories : gmap string factory :=
  {[ "low" := FastExporter;
     "high" := HighQualityExporter;
     "master" := MasterQualityExporter ]}.

(** The [while True] loop of [read_exporter], lines 167 to 172, by
    recursion on the lines still to be read: [input], then
    [return factories[export_quality]] or [print]. *)
Fixpoint read_exporter_loop (lines : list string) (written : list string)
  : outcome error factory * console :=
  match lines with
  | [] => (Raised EOFError, {| stdin := []; stdout := written ++ [prompt] |})
  | export_quality :: rest =>
      if decide (export_quality ∈ dom factories) then
        match factories !! export_quality with
        | Some fac =>
            (Returned fac, {| stdin := rest; stdout := written ++ [prompt] |})
        | None =>
            (Raised (KeyError export_quality),
             {| stdin := rest; stdout := written ++ [prompt] |})
        end
      else
        read_exporter_loop rest
          ((written ++ [prompt]) ++ [(unknown export_quality ++ newline)%string])
  end.

(** [read_exporter()] *)
Definition read_exporter (c : console) : outcome error factory * console :=
  read_exporter_loop (stdin c) (stdout c).

(** [main()] *)
Definition main (str : path -> string) (c : console)
  : outcome error unit * console :=
  match read_exporter c with
  | (Raised e, c1) => (Raised e, c1)
  | (Returned fac, c1) =>
      let video_exporter := get_video_exporter fac in
      let audio_exporter := get_audio_exporter fac in
      let c2 := prepare_export video_exporter "placeholder_for_video_data" c1 in
      let c3 := prepare_export audio_exporter "placeholder_for_audio_data" c2 in
      let folder := Path "/usr/tmp/video" in
      let c4 := do_export str video_exporter folder c3 in
      let c5 := do_export str audio_exporter folder c4 in
      (Returned tt, c5)
  end.

End Better.

(** What the dialogue writes for the lines [bad] that were turned down:
    the prompt and the complaint, for each of them. *)
Definition turned_down (bad : list string) : list string :=
  bad ≫= (fun s => [prompt; (unknown s ++ newline)%string]).

End Factory.

Example app_script_runs :
  app_script class_defined =
  (Return (Reusable_at 0, Reusable_at 1, Reusable_at 1),
   {| free := []; in_use := [Reusable_at 0; Reusable_at 1]; next_addr := 2;
      invoked := [(Reusable_at 0, test); (Reusable_at 1, test);
                  (Reusable_at 1, test)] |}).
Proof. reflexivity. Qed.

Example app_with_context_script_runs :
  app_with_context_script class_defined =
  (Return tt,
   {| free := [Reusable_at 1; Reusable_at 0]; in_use := []; next_addr := 2;
      invoked := [(Reusable_at 0, test); (Reusable_at 1, test);
                  (Reusable_at 0, test)] |}).
Proof. reflexivity. Qed.

(** * Properties *)

(** ** [list.remove] *)
Section list_remove.
Implicit Types (x : pyobj) (l r : list pyobj).

Lemma list_remove_None x l : list_remove x l = None <-> x ∉ l.
Proof.
  induction l as [|y l IH]; simpl.
  - split; [intros _; apply not_elem_of_nil | done].
  - rewrite not_elem_of_cons. destruct (decide (y = x)) as [->|Hne].
    + split; [done | intros [? _]; done].
    + destruct (list_remove x l) eqn:E.
      * split; [done|]. intros [_ Hl]. apply IH in Hl. done.
      * split; [|done]. intros _. split; [congruence | by apply IH].
Qed.

Lemma list_remove_Some_perm x l r : list_remove x l = Some r -> l ≡ₚ x :: r.
Proof.
  revert r. induction l as [|y l IH]; intros r; simpl; [done|].
  destruct (decide (y = x)) as [->|Hne].
  - intros [= ->]. done.
  - destruct (list_remove x l) as [r'|] eqn:E; [|done].
    intros [= <-]. rewrite (IH r' eq_refl). apply Permutation_swap.
Qed.

Lemma list_remove_Some_length x l r :
  list_remove x l = Some r -> length l = S (length r).
Proof. intros H. by rewrite (list_remove_Some_perm _ _ _ H). Qed.

Lemma list_remove_is_Some x l : x ∈ l -> is_Some (list_remove x l).
Proof.
  intros Hin. destruct (list_remove x l) eqn:E; [by eexists|].
  apply list_remove_None in E. done.
Qed.

Lemma list_remove_head x l : list_remove x (x :: l) = Some l.
Proof. simpl. by rewrite decide_True. Qed.

End list_remove.

(** ** What each method does to the state *)

Lemma acquire_eq (self : ReusablePool.t) (w : world) :
  ReusablePool.acquire self w =
  match free w with
  | [] => (Raise (Exception "No more objects are available."), w)
  | o :: l => (Return o, {| free := l; in_use := in_use w ++ [o];
                           next_addr := next_addr w; invoked := invoked w |})
  end.
Proof.
  unfold ReusablePool.acquire, bind, len_free, free_getitem, free_remove,
    in_use_append, ret, raise.
  destruct w as [f u n iv]; simpl. destruct f as [|o l]; simpl; [done|].
  by rewrite decide_True.
Qed.

Lemma release_eq (self : ReusablePool.t) (o : pyobj) (w : world) :
  ReusablePool.release self o w =
  match list_remove o (in_use w) with
  | Some l => (Return tt, {| free := free w ++ [o]; in_use := l;
                            next_addr := next_addr w; invoked := invoked w |})
  | None => (Raise remove_error, w)
  end.
Proof.
  unfold ReusablePool.release, bind, in_use_remove, free_append.
  by destruct (list_remove o (in_use w)).
Qed.

Lemma fill_eq (n : nat) (w : world) :
  ReusablePool.fill n w =
  (Return tt, {| free := free w ++ map Reusable_at (seq (next_addr w) n);
                 in_use := in_use w;
                 next_addr := next_addr w + n; invoked := invoked w |}).
Proof.
  revert w. induction n as [|n IH]; intros [f u a iv]; simpl.
  - unfold ret. by rewrite app_nil_r, Nat.add_0_r.
  - unfold bind at 1. simpl. unfold bind at 1. simpl.
    rewrite IH. simpl. rewrite <- app_assoc. simpl.
    by rewrite Nat.add_succ_r.
Qed.

Lemma init_eq (size : Z) (w : world) :
  ReusablePool.__init__ size w =
  (Return (ReusablePool.Instance size),
   {| free := free w ++ map Reusable_at (seq (next_addr w) (Z.to_nat size));
      in_use := in_use w;
      next_addr := next_addr w + Z.to_nat size; invoked := invoked w |}).
Proof. unfold ReusablePool.__init__, bind. by rewrite fill_eq. Qed.

Lemma after_call_held (self : ReusablePool.t) (c : call) (w : world) :
  held (after_call self c w) = held w.
Proof.
  unfold held. destruct c as [|o]; simpl.
  - rewrite acquire_eq. destruct (free w) eqn:E; simpl; [by rewrite E|].
    rewrite length_app. simpl. lia.
  - rewrite release_eq. destruct (list_remove o (in_use w)) eqn:E; simpl; [|done].
    apply list_remove_Some_length in E. rewrite length_app, E. simpl. lia.
Qed.

Lemma observed_held (self : ReusablePool.t) (cs : list call) (w : world) :
  Forall (fun w' => held w' = held w) (observed (after_call self) cs w).
Proof.
  revert w. induction cs as [|c cs IH]; intros w; simpl; [constructor|].
  constructor; [apply after_call_held|].
  rewrite <- (after_call_held self c w). apply IH.
Qed.

(** ** The bookkeeping invariant *)

Lemma after_call_perm (self : ReusablePool.t) (c : call) (w : world) :
  free (after_call self c w) ++ in_use (after_call self c w)
    ≡ₚ free w ++ in_use w.
Proof.
  destruct c as [|o]; simpl.
  - rewrite acquire_eq. destruct (free w) as [|r l] eqn:E; simpl.
    + by rewrite E.
    + rewrite (Permutation_app_comm (in_use w) [r]). simpl.
      symmetry. apply Permutation_middle.
  - rewrite release_eq. destruct (list_remove o (in_use w)) as [l|] eqn:E;
      simpl; [|done].
    rewrite (list_remove_Some_perm _ _ _ E), <- app_assoc. done.
Qed.

Lemma after_call_next_addr (self : ReusablePool.t) (c : call) (w : world) :
  next_addr (after_call self c w) = next_addr w.
Proof.
  destruct c as [|o]; simpl.
  - rewrite acquire_eq. by destruct (free w).
  - rewrite release_eq. by destruct (list_remove o (in_use w)).
Qed.

Lemma allocated_mono (w w' : world) (o : pyobj) :
  next_addr w <= next_addr w' -> allocated w o -> allocated w' o.
Proof. destruct o; simpl; [done | lia]. Qed.

Lemma fresh_NoDup (a n : nat) : NoDup (map Reusable_at (seq a n)).
Proof.
  apply NoDup_fmap_2; [intros x y [= ->]; done | apply NoDup_seq].
Qed.

Lemma fresh_elem_of (a n : nat) (o : pyobj) :
  o ∈ map Reusable_at (seq a n) <-> exists b, o = Reusable_at b /\ a <= b < a + n.
Proof.
  rewrite list_elem_of_fmap. split.
  - intros (b & -> & Hb). exists b. split; [done|]. by apply elem_of_seq in Hb.
  - intros (b & -> & Hb). exists b. split; [done|]. by apply elem_of_seq.
Qed.

Lemma well_formed_class_defined : well_formed class_defined.
Proof. split; simpl; constructor. Qed.

Lemma after_call_well_formed (self : ReusablePool.t) (c : call) (w : world) :
  well_formed w -> well_formed (after_call self c w).
Proof.
  intros [Hnd Hal]. split.
  - by rewrite after_call_perm.
  - rewrite after_call_perm. eapply Forall_impl; [exact Hal|].
    intros o. apply allocated_mono. by rewrite after_call_next_addr.
Qed.

Lemma init_well_formed (size : Z) (w : world) :
  well_formed w -> well_formed (snd (ReusablePool.__init__ size w)).
Proof.
  intros [Hnd Hal]. rewrite init_eq. simpl.
  set (new := map Reusable_at (seq (next_addr w) (Z.to_nat size))).
  assert (Hperm : (free w ++ new) ++ in_use w ≡ₚ new ++ free w ++ in_use w).
  { by rewrite (Permutation_app_comm (free w) new), <- app_assoc. }
  split; rewrite Hperm.
  - apply NoDup_app. split; [apply fresh_NoDup|]. split; [|done].
    intros o Ho Ho'. apply fresh_elem_of in Ho as (b & -> & Hb).
    rewrite Forall_forall in Hal. apply Hal in Ho'. simpl in Ho'. lia.
  - apply Forall_app. split.
    + apply Forall_forall. intros o Ho.
      apply fresh_elem_of in Ho as (b & -> & Hb). simpl. lia.
    + eapply Forall_impl; [exact Hal|]. intros o.
      apply allocated_mono. simpl. lia.
Qed.

Lemma after_op_well_formed (o : op) (w : world) :
  well_formed w -> well_formed (after_op o w).
Proof.
  destruct o as [size|self c| |r]; simpl.
  - apply init_well_formed.
  - apply after_call_well_formed.
  - intros [Hnd Hal]. split; simpl; [done|].
    eapply Forall_impl; [exact Hal|]. intros o.
    apply allocated_mono. simpl. lia.
  - intros [Hnd Hal]. by split.
Qed.

Lemma observed_well_formed (ops : list op) (w : world) :
  well_formed w -> Forall well_formed (observed after_op ops w).
Proof.
  revert w. induction ops as [|o ops IH]; intros w Hw; simpl; [constructor|].
  constructor; [by apply after_op_well_formed|].
  apply IH. by apply after_op_well_formed.
Qed.

Lemma well_formed_disjoint (w : world) (o : pyobj) :
  well_formed w -> o ∈ free w -> o ∈ in_use w -> False.
Proof. intros [Hnd _]. apply NoDup_app in Hnd as (_ & Hd & _). apply Hd. Qed.

(** ** Claims about the pool *)

(** C1, as stated, fails: the lists belong to the class, so they hold the
    objects of every pool constructed so far.  After [ReusablePool(1)]
    twice, a call on the first pool leaves two objects in the lists, while
    that pool's [size] is 1.  Independently, [ReusablePool(-1)] is
    constructed with [size = -1] and holds no object. *)
Lemma C1_counterexample :
  exists p1 p2 w1 w2,
    ReusablePool.__init__ 1 class_defined = (Return p1, w1) /\
    ReusablePool.__init__ 1 w1 = (Return p2, w2) /\
    ReusablePool.size p1 = 1%Z /\
    held (after_call p1 Acquire w2) = 2 /\
    Z.of_nat (held (after_call p1 Acquire w2)) <> ReusablePool.size p1 /\
    (exists p w,
       ReusablePool.__init__ (-1) class_defined = (Return p, w) /\
       ReusablePool.size p = (-1)%Z /\
       held (after_call p Acquire w) = 0 /\
       Z.of_nat (held (after_call p Acquire w)) <> ReusablePool.size p).
Proof.
  eexists _, _, _, _. split; [reflexivity|]. split; [reflexivity|].
  split; [reflexivity|]. split; [reflexivity|]. split; [discriminate|].
  eexists _, _. split; [reflexivity|]. split; [reflexivity|].
  split; [reflexivity | discriminate].
Qed.

(** C1, amended: for a pool constructed with a capacity [c >= 0] while the
    class-level lists are empty, the number of objects in [free] plus the
    number in [in_use] equals [c] right after construction and after every
    [acquire] and [release] call, whether the call returns or raises. *)
Theorem C1_held_is_capacity (c : Z) (cs : list call) (w : world) :
  (0 <= c)%Z -> free w = [] -> in_use w = [] ->
  exists self w0,
    ReusablePool.__init__ c w = (Return self, w0) /\
    ReusablePool.size self = c /\
    Forall (fun w' =>
              Z.of_nat (length (ReusablePool.get_free self w')
                        + length (ReusablePool.get_in_use self w')) = c)
           (w0 :: observed (after_call self) cs w0).
Proof.
  intros Hc Hf Hu. rewrite init_eq. eexists _, _. split; [reflexivity|].
  split; [reflexivity|].
  match goal with |- Forall _ (?w0 :: _) => set (w0' := w0) end.
  assert (H0 : Z.of_nat (held w0') = c).
  { unfold held, w0'. simpl.
    rewrite Hf, Hu. simpl. rewrite length_map, length_seq. lia. }
  constructor; [exact H0|].
  eapply Forall_impl; [apply observed_held|].
  intros w' Hw'. unfold ReusablePool.get_free, ReusablePool.get_in_use.
  fold (held w'). by rewrite Hw'.
Qed.

Lemma C1_held_is_capacity_witness :
  exists self w0,
    ReusablePool.__init__ 2 class_defined = (Return self, w0) /\
    ReusablePool.size self = 2%Z /\
    Forall (fun w' =>
              Z.of_nat (length (ReusablePool.get_free self w')
                        + length (ReusablePool.get_in_use self w')) = 2%Z)
           (w0 :: observed (after_call self)
                    [Acquire; Release (Reusable_at 0); Acquire; Acquire;
                     Acquire; Release (Reusable_at 7)] w0).
Proof.
  apply (C1_held_is_capacity 2 _ class_defined); [lia | reflexivity | reflexivity].
Defined.

(** C2: starting from the class definition, after every operation of every
    sequence of constructions, [acquire] and [release] calls (returning or
    raising), allocations and [test] calls, no object is in both the
    [free] list and the [in_use] list a pool sees. *)
Theorem C2_free_in_use_disjoint (ops : list op) (self : ReusablePool.t)
  (o : pyobj) :
  Forall (fun w => ~ (o ∈ ReusablePool.get_free self w
                      /\ o ∈ ReusablePool.get_in_use self w))
         (observed after_op ops class_defined).
Proof.
  eapply Forall_impl.
  - apply observed_well_formed, well_formed_class_defined.
  - intros w Hw [Hf Hu]. exact (well_formed_disjoint w o Hw Hf Hu).
Qed.

(** C3: when the [free] list a pool sees is empty, [acquire] raises
    [Exception("No more objects are available.")], the exhaustion error of
    the code.  It returns at once, allocates nothing and leaves the whole
    state, in particular [free] and [in_use], as it was. *)
Theorem C3_acquire_exhausted (self : ReusablePool.t) (w : world) :
  ReusablePool.get_free self w = [] ->
  ReusablePool.acquire self w =
  (Raise (Exception "No more objects are available."), w).
Proof.
  unfold ReusablePool.get_free. intros Hf. rewrite acquire_eq. by rewrite Hf.
Qed.

Lemma C3_acquire_exhausted_witness :
  ReusablePool.acquire (ReusablePool.Instance 2)
    {| free := []; in_use := [Reusable_at 0; Reusable_at 1];
       next_addr := 2; invoked := [] |} =
  (Raise (Exception "No more objects are available."),
   {| free := []; in_use := [Reusable_at 0; Reusable_at 1];
      next_addr := 2; invoked := [] |}).
Proof. apply C3_acquire_exhausted. reflexivity. Defined.

(** C4, as stated, fails: class [Reusable] has no reset operation and
    [release] invokes no method on the object it is given.  With a pool of
    one object: acquire it, release it; no invocation on it was recorded
    in between, and the next [acquire] hands the same object out. *)
Lemma C4_counterexample :
  exists pool w1 a w2 w3 w4,
    ReusablePool.__init__ 1 class_defined = (Return pool, w1) /\
    ReusablePool.acquire pool w1 = (Return a, w2) /\
    ReusablePool.release pool a w2 = (Return tt, w3) /\
    a ∈ ReusablePool.get_free pool w3 /\
    invoked w3 = invoked w2 /\
    invocations_on a w3 - invocations_on a w2 <> 1 /\
    ReusablePool.acquire pool w3 = (Return a, w4).
Proof.
  eexists _, _, _, _, _, _. split; [reflexivity|]. split; [reflexivity|].
  split; [reflexivity|]. split; [simpl; apply list_elem_of_here|].
  split; [reflexivity|]. split; [discriminate | reflexivity].
Qed.

(** C4, amended: for every object currently in [in_use], [release]
    returns normally after removing the first occurrence of the object
    from [in_use] and then appending it to the end of [free], where a later
    [acquire] can take it; it invokes no method on the object (no reset
    takes place) and allocates nothing. *)
Theorem C4_release_moves_object (self : ReusablePool.t) (o : pyobj) (w : world) :
  o ∈ ReusablePool.get_in_use self w ->
  exists w',
    ReusablePool.release self o w = (Return tt, w') /\
    list_remove o (ReusablePool.get_in_use self w)
      = Some (ReusablePool.get_in_use self w') /\
    ReusablePool.get_free self w' = ReusablePool.get_free self w ++ [o] /\
    invoked w' = invoked w /\
    next_addr w' = next_addr w.
Proof.
  unfold ReusablePool.get_in_use, ReusablePool.get_free. intros Hin.
  destruct (list_remove_is_Some _ _ Hin) as [l Hl].
  rewrite release_eq, Hl. eexists. split; [reflexivity|]. by simpl.
Qed.

Lemma C4_release_moves_object_witness :
  exists w',
    ReusablePool.release (ReusablePool.Instance 2) (Reusable_at 1)
      {| free := []; in_use := [Reusable_at 0; Reusable_at 1];
         next_addr := 2; invoked := [] |} = (Return tt, w') /\
    list_remove (Reusable_at 1) [Reusable_at 0; Reusable_at 1]
      = Some (in_use w') /\
    free w' = [] ++ [Reusable_at 1] /\
    invoked w' = [] /\
    next_addr w' = 2.
Proof.
  apply (C4_release_moves_object (ReusablePool.Instance 2) (Reusable_at 1)
           {| free := []; in_use := [Reusable_at 0; Reusable_at 1];
              next_addr := 2; invoked := [] |}).
  simpl. apply list_elem_of_further, list_elem_of_here.
Defined.

(** C5: for every object that is not in the [in_use] list (for one that
    was already released, see the witness), [release] raises the
    [ValueError] of [list.remove] before anything is appended to [free]:
    the state, and with it the sizes of both lists, is unchanged. *)
Theorem C5_release_not_leased (self : ReusablePool.t) (o : pyobj) (w : world) :
  o ∉ ReusablePool.get_in_use self w ->
  ReusablePool.release self o w =
    (Raise (ValueError "list.remove(x): x not in list"), w)
  /\ length (ReusablePool.get_free self
               (snd (ReusablePool.release self o w)))
       = length (ReusablePool.get_free self w)
  /\ length (ReusablePool.get_in_use self
               (snd (ReusablePool.release self o w)))
       = length (ReusablePool.get_in_use self w).
Proof.
  unfold ReusablePool.get_in_use, ReusablePool.get_free. intros Hout.
  apply list_remove_None in Hout. rewrite release_eq, Hout. by simpl.
Qed.

(** The double release scenario: acquire [a], release [a], release [a]
    again. *)
Lemma C5_release_not_leased_witness :
  let pool := ReusablePool.Instance 1 in
  let a := Reusable_at 0 in
  let w := final (after_call pool) [Acquire; Release a]
             (snd (ReusablePool.__init__ 1 class_defined)) in
  ReusablePool.release pool a w =
    (Raise (ValueError "list.remove(x): x not in list"), w)
  /\ length (free (snd (ReusablePool.release pool a w))) = length (free w)
  /\ length (in_use (snd (ReusablePool.release pool a w))) = length (in_use w).
Proof.
  intros pool a w. apply (C5_release_not_leased pool a w).
  simpl. apply not_elem_of_nil.
Defined.

(** C6, as stated, fails: [__init__] has no check on [size], and
    [range(size)] is empty for [size <= 0].  [ReusablePool(0)] and
    [ReusablePool(-3)] both return a pool and leave the state unchanged. *)
Lemma C6_counterexample :
  ReusablePool.__init__ 0 class_defined
    = (Return (ReusablePool.Instance 0), class_defined) /\
  ReusablePool.__init__ (-3) class_defined
    = (Return (ReusablePool.Instance (-3)), class_defined).
Proof. split; reflexivity. Qed.

(** C6, amended: construction succeeds for every integer capacity and
    returns a pool whose [size] is that capacity; for a capacity less than
    or equal to zero it creates no object and leaves the state unchanged,
    for a capacity greater than zero it makes [free] longer by exactly
    that many objects. *)
Theorem C6_init_always_succeeds (size : Z) (w : world) :
  exists self w',
    ReusablePool.__init__ size w = (Return self, w') /\
    ReusablePool.size self = size /\
    if (size <=? 0)%Z then w' = w
    else Z.of_nat (length (free w')) = (Z.of_nat (length (free w)) + size)%Z.
Proof.
  rewrite init_eq. eexists _, _. split; [reflexivity|]. split; [reflexivity|].
  destruct (Z.leb_spec size 0) as [Hle|Hgt].
  - replace (Z.to_nat size) with 0 by lia. destruct w as [f u n iv]; simpl.
    by rewrite app_nil_r, Nat.add_0_r.
  - simpl. rewrite length_app, length_map, length_seq. lia.
Qed.

Lemma bind_run {A B} (m : M A) (k : A -> M B) (w : world) :
  bind m k w =
  match m w with
  | (Return a, w') => k a w'
  | (Raise e, w') => (Raise e, w')
  end.
Proof. reflexivity. Qed.

Lemma scenario_capacity_2_eq (n : nat) (iv : list (pyobj * Reusable_method)) :
  scenario_capacity_2
    {| free := []; in_use := []; next_addr := n; invoked := iv |} =
  (Return (Reusable_at n, Reusable_at (S n),
           Raise (Exception "No more objects are available."),
           Reusable_at n, 2, 0),
   {| free := [Reusable_at (S n); Reusable_at n]; in_use := [];
      next_addr := n + 2; invoked := iv |}).
Proof.
  assert (Hne : Reusable_at (S n) <> Reusable_at n) by (intros [=]; lia).
  unfold scenario_capacity_2.
  rewrite bind_run, init_eq. change (Z.to_nat 2) with 2. simpl.
  rewrite bind_run, acquire_eq. simpl.
  rewrite bind_run, acquire_eq. simpl.
  rewrite bind_run. unfold attempt. rewrite acquire_eq. simpl.
  rewrite bind_run, release_eq. simpl. rewrite decide_True by done.
  rewrite bind_run, acquire_eq. simpl.
  rewrite bind_run, release_eq. simpl. rewrite decide_True by done.
  rewrite bind_run, release_eq. simpl. rewrite decide_True by done.
  reflexivity.
Qed.

(** C7, as stated, fails in two ways.  First, the scenario depends on
    what the class-level lists hold when the pool of capacity 2 is
    constructed: after an earlier [ReusablePool(1)] the [free] list holds
    three objects, so the third [acquire] does not raise but returns an
    object, and the scenario ends with one object in [in_use].  Second, [acquire] takes the head of the
    [free] list, not the lowest free resource: in a pool of two objects,
    after acquiring both and releasing the second and then the first,
    [free] is the second followed by the first, and [acquire] returns the
    second although the first is free. *)
Lemma C7_counterexample :
  (exists w,
     scenario_capacity_2 (snd (ReusablePool.__init__ 1 class_defined)) =
     (Return (Reusable_at 0, Reusable_at 1, Return (Reusable_at 2),
              Reusable_at 0, 2, 1), w)
     /\ length (in_use w) = 1)
  /\ (exists pool w0 w w',
        ReusablePool.__init__ 2 class_defined = (Return pool, w0) /\
        final (after_call pool)
          [Acquire; Acquire; Release (Reusable_at 1); Release (Reusable_at 0)]
          w0 = w /\
        ReusablePool.get_free pool w = [Reusable_at 1; Reusable_at 0] /\
        ReusablePool.acquire pool w = (Return (Reusable_at 1), w')).
Proof.
  split.
  - eexists. split; [vm_compute; reflexivity | reflexivity].
  - exists (ReusablePool.Instance 2). eexists _, _, _.
    split; [reflexivity|]. split; [reflexivity|].
    split; [reflexivity|]. vm_compute. reflexivity.
Qed.

(** C7, amended: [acquire] is a function of the state and always takes
    the item at index 0 of the [free] list (released objects are appended
    at its end), moving it to the end of [in_use].  In the scenario with a
    pool of capacity 2 constructed while both class-level lists are empty,
    the first two calls return two different objects [a] and [b], the
    third raises the exhaustion error, after [release(a)] the next call
    returns [a] again, and after releasing [b] and that object [free]
    holds 2 objects and [in_use] none. *)
Theorem C7_scenario_from_empty_lists (w : world) :
  free w = [] -> in_use w = [] ->
  (forall self o l u n iv,
     ReusablePool.acquire self
       {| free := o :: l; in_use := u; next_addr := n; invoked := iv |} =
     (Return o,
      {| free := l; in_use := u ++ [o]; next_addr := n; invoked := iv |}))
  /\ exists a b w',
       a <> b /\
       scenario_capacity_2 w =
       (Return (a, b, Raise (Exception "No more objects are available."),
                a, 2, 0), w') /\
       length (free w') = 2 /\ length (in_use w') = 0.
Proof.
  intros Hf Hu. split.
  - intros self o l u n iv. by rewrite acquire_eq.
  - destruct w as [f u n iv]. simpl in Hf, Hu. subst f u.
    exists (Reusable_at n), (Reusable_at (S n)). eexists.
    split; [intros [=]; lia|]. split; [apply scenario_capacity_2_eq|].
    split; reflexivity.
Qed.

Lemma C7_scenario_from_empty_lists_witness :
  (forall self o l u n iv,
     ReusablePool.acquire self
       {| free := o :: l; in_use := u; next_addr := n; invoked := iv |} =
     (Return o,
      {| free := l; in_use := u ++ [o]; next_addr := n; invoked := iv |}))
  /\ exists a b w',
       a <> b /\
       scenario_capacity_2 class_defined =
       (Return (a, b, Raise (Exception "No more objects are available."),
                a, 2, 0), w') /\
       length (free w') = 2 /\ length (in_use w') = 0.
Proof.
  apply (C7_scenario_from_empty_lists class_defined); reflexivity.
Defined.

(** C8, as stated, fails for any pool that is not the first: the new
    objects are appended to the class-level [free] list, next to whatever
    the lists already hold.  After [ReusablePool(1)], a second
    [ReusablePool(1)] sees two objects in [free]; and if the first pool's
    object was acquired in between, the new pool sees it in [in_use]. *)
Lemma C8_counterexample :
  (exists p1 w1 p2 w2,
     ReusablePool.__init__ 1 class_defined = (Return p1, w1) /\
     ReusablePool.__init__ 1 w1 = (Return p2, w2) /\
     ReusablePool.size p2 = 1%Z /\
     length (ReusablePool.get_free p2 w2) = 2) /\
  (exists p1 w1 a w2 p2 w3,
     ReusablePool.__init__ 1 class_defined = (Return p1, w1) /\
     ReusablePool.acquire p1 w1 = (Return a, w2) /\
     ReusablePool.__init__ 1 w2 = (Return p2, w3) /\
     ReusablePool.get_in_use p2 w3 = [a]).
Proof.
  split.
  - eexists _, _, _, _. split; [reflexivity|]. split; [reflexivity|].
    split; reflexivity.
  - eexists _, _, _, _, _, _. split; [reflexivity|]. split; [reflexivity|].
    split; reflexivity.
Qed.

(** C8, amended: for every capacity greater than zero, construction
    creates exactly that many objects, all different from each other and
    from every object allocated before, appends all of them to the end of
    the [free] list and leaves [in_use] as it was.  So a pool constructed
    while both lists are empty sees exactly [capacity] objects, all in
    [free] and none in [in_use]. *)
Theorem C8_init_appends_capacity_objects (c : Z) (w : world) :
  (0 < c)%Z ->
  exists self w' new,
    ReusablePool.__init__ c w = (Return self, w') /\
    ReusablePool.size self = c /\
    ReusablePool.get_free self w' = ReusablePool.get_free self w ++ new /\
    ReusablePool.get_in_use self w' = ReusablePool.get_in_use self w /\
    Z.of_nat (length new) = c /\
    NoDup new /\
    Forall (fun o => allocated w' o /\ ~ allocated w o) new.
Proof.
  intros Hc. rewrite init_eq. eexists _, _, _. split; [reflexivity|].
  split; [reflexivity|]. split; [reflexivity|]. split; [reflexivity|].
  split; [rewrite length_map, length_seq; lia|].
  split; [apply fresh_NoDup|].
  apply Forall_forall. intros o Ho.
  apply fresh_elem_of in Ho as (b & -> & Hb). simpl. lia.
Qed.

Lemma C8_init_appends_capacity_objects_witness :
  exists self w' new,
    ReusablePool.__init__ 2 class_defined = (Return self, w') /\
    ReusablePool.size self = 2%Z /\
    free w' = [] ++ new /\
    in_use w' = [] /\
    Z.of_nat (length new) = 2%Z /\
    NoDup new /\
    Forall (fun o => allocated w' o /\ ~ allocated class_defined o) new.
Proof. apply (C8_init_appends_capacity_objects 2 class_defined). lia. Defined.

(** ** Claims about the context manager *)

(** C9, as stated, fails in its idempotence part: [PoolManager] keeps no
    record of having released, and [__exit__] calls [release] each time
    it is invoked.  With a pool of one object: enter and exit a manager;
    a second [__exit__] on it is not a no-op but raises [ValueError];
    and once another manager has acquired the same object, a further
    [__exit__] on the first manager releases it again, under the second
    manager's feet. *)
Lemma C9_counterexample :
  exists pool w0 m1 a w1 w2 m2 w3 w4,
    ReusablePool.__init__ 1 class_defined = (Return pool, w0) /\
    PoolManager.__enter__ (PoolManager.__init__ pool) w0
      = (Return (m1, a), w1) /\
    PoolManager.__exit__ m1 None w1 = (Return PyNone, w2) /\
    PoolManager.__exit__ m1 None w2
      = (Raise (ValueError "list.remove(x): x not in list"), w2) /\
    PoolManager.__enter__ (PoolManager.__init__ pool) w2
      = (Return (m2, a), w3) /\
    in_use w3 = [a] /\
    PoolManager.__exit__ m1 None w3 = (Return PyNone, w4) /\
    in_use w4 = [] /\ free w4 = [a].
Proof.
  pose (pool := ReusablePool.Instance 1).
  pose (a := Reusable_at 0).
  pose (m := {| PoolManager.pool := pool; PoolManager.obj := a |}).
  pose (idle := {| free := [a]; in_use := []; next_addr := 1; invoked := [] |}).
  pose (busy := {| free := []; in_use := [a]; next_addr := 1; invoked := [] |}).
  exists pool, idle, m, a, busy, idle, m, busy, idle.
  repeat split; vm_compute; reflexivity.
Qed.

(** C9, amended: the [with] statement calls [__exit__] once on every way
    out of its body, and each call of [__exit__] calls [pool.release] on
    the stored object once.  So when [acquire] returned [o] and the body,
    whether it finished or raised, left [o] in [in_use], the statement
    ends with [o] removed from [in_use] and appended once to [free], and
    has the outcome of the body (an exception of the body is re-raised).
    [__exit__] is not idempotent: every further call on the manager calls
    [pool.release] on the same object again. *)
Theorem C9_with_releases_once (pool : ReusablePool.t) (body : pyobj -> M unit)
  (w w1 w2 : world) (o : pyobj) (outcome : result unit) (l : list pyobj) :
  ReusablePool.acquire pool w = (Return o, w1) ->
  body o w1 = (outcome, w2) ->
  list_remove o (in_use w2) = Some l ->
  with_PoolManager pool body w =
    (outcome, {| free := free w2 ++ [o]; in_use := l;
                 next_addr := next_addr w2; invoked := invoked w2 |})
  /\ forall exc w',
       PoolManager.__exit__ {| PoolManager.pool := pool;
                               PoolManager.obj := o |} exc w' =
       match ReusablePool.release pool o w' with
       | (Return _, w'') => (Return PyNone, w'')
       | (Raise e, w'') => (Raise e, w'')
       end.
Proof.
  intros Hacq Hbody Hl. split.
  - unfold with_PoolManager, PoolManager.__enter__, PoolManager.__exit__, bind.
    simpl. rewrite Hacq. unfold ret. simpl. rewrite Hbody.
    rewrite release_eq, Hl. by destruct outcome as [[]|e].
  - intros exc w'. unfold PoolManager.__exit__, bind. simpl.
    by destruct (ReusablePool.release pool o w') as [[[]|e] w''].
Qed.

(** A body that calls [test] and then fails, in a pool of two objects. *)
Lemma C9_with_releases_once_witness :
  let pool := ReusablePool.Instance 2 in
  let body := fun r => do_ Reusable.test r; raise (Exception "boom") in
  let w := {| free := [Reusable_at 0; Reusable_at 1]; in_use := [];
              next_addr := 2; invoked := [] |} in
  with_PoolManager pool body w =
    (Raise (Exception "boom"),
     {| free := [Reusable_at 1] ++ [Reusable_at 0]; in_use := [];
        next_addr := 2; invoked := [(Reusable_at 0, test)] |})
  /\ forall exc w',
       PoolManager.__exit__ {| PoolManager.pool := pool;
                               PoolManager.obj := Reusable_at 0 |} exc w' =
       match ReusablePool.release pool (Reusable_at 0) w' with
       | (Return _, w'') => (Return PyNone, w'')
       | (Raise e, w'') => (Raise e, w'')
       end.
Proof.
  intros pool body w.
  apply (C9_with_releases_once pool body w
           {| free := [Reusable_at 1]; in_use := [Reusable_at 0];
              next_addr := 2; invoked := [] |}
           {| free := [Reusable_at 1]; in_use := [Reusable_at 0];
              next_addr := 2; invoked := [(Reusable_at 0, test)] |}
           (Reusable_at 0) (Raise (Exception "boom")) []);
    reflexivity.
Defined.

(** C10: the lists are class-level state.  After constructing a pool of
    capacity [c1] and then a second pool of capacity [c2], both objects
    see one and the same [free] list (and [in_use] list); it held [c1]
    objects before the second construction and holds [c1 + c2] after it,
    while each pool keeps its own [size]. *)
Theorem C10_lists_are_shared (c1 c2 : Z) :
  (0 <= c1)%Z -> (0 <= c2)%Z ->
  exists p1 w1 p2 w2,
    ReusablePool.__init__ c1 class_defined = (Return p1, w1) /\
    ReusablePool.__init__ c2 w1 = (Return p2, w2) /\
    ReusablePool.size p1 = c1 /\ ReusablePool.size p2 = c2 /\
    Z.of_nat (length (ReusablePool.get_free p1 w1)) = c1 /\
    ReusablePool.get_free p1 w2 = ReusablePool.get_free p2 w2 /\
    ReusablePool.get_in_use p1 w2 = ReusablePool.get_in_use p2 w2 /\
    Z.of_nat (length (ReusablePool.get_free p1 w2)) = (c1 + c2)%Z.
Proof.
  intros H1 H2. rewrite init_eq. eexists _, _, _, _.
  split; [reflexivity|]. rewrite init_eq. split; [reflexivity|].
  split; [reflexivity|]. split; [reflexivity|].
  unfold ReusablePool.get_free, ReusablePool.get_in_use. simpl.
  split; [rewrite length_map, length_seq; lia|].
  split; [reflexivity|]. split; [reflexivity|].
  rewrite !length_app, !length_map, !length_seq. lia.
Qed.

Lemma C10_lists_are_shared_witness :
  exists p1 w1 p2 w2,
    ReusablePool.__init__ 2 class_defined = (Return p1, w1) /\
    ReusablePool.__init__ 3 w1 = (Return p2, w2) /\
    ReusablePool.size p1 = 2%Z /\ ReusablePool.size p2 = 3%Z /\
    Z.of_nat (length (ReusablePool.get_free p1 w1)) = 2%Z /\
    ReusablePool.get_free p1 w2 = ReusablePool.get_free p2 w2 /\
    ReusablePool.get_in_use p1 w2 = ReusablePool.get_in_use p2 w2 /\
    Z.of_nat (length (ReusablePool.get_free p1 w2)) = (2 + 3)%Z.
Proof. apply (C10_lists_are_shared 2 3); lia. Defined.

(** * Further properties of the pool *)

Lemma final_cons {A} (step : A -> world -> world) (a : A) (l : list A)
  (w : world) :
  final step (a :: l) w = final step l (step a w).
Proof. reflexivity. Qed.

Lemma final_app {A} (step : A -> world -> world) (l1 l2 : list A) (w : world) :
  final step (l1 ++ l2) w = final step l2 (final step l1 w).
Proof. unfold final. apply fold_left_app. Qed.

Lemma final_well_formed (ops : list op) (w : world) :
  well_formed w -> well_formed (final after_op ops w).
Proof.
  revert w. induction ops as [|o ops IH]; intros w Hw; [done|].
  rewrite final_cons. by apply IH, after_op_well_formed.
Qed.

Lemma final_calls_well_formed (self : ReusablePool.t) (cs : list call)
  (w : world) :
  well_formed w -> well_formed (final (after_call self) cs w).
Proof.
  revert w. induction cs as [|c cs IH]; intros w Hw; [done|].
  rewrite final_cons. by apply IH, after_call_well_formed.
Qed.

Lemma after_call_invoked (self : ReusablePool.t) (c : call) (w : world) :
  invoked (after_call self c w) = invoked w.
Proof.
  destruct c as [|o]; simpl.
  - rewrite acquire_eq. by destruct (free w).
  - rewrite release_eq. by destruct (list_remove o (in_use w)).
Qed.

Lemma well_formed_not_None (w : world) :
  well_formed w -> PyNone ∉ free w ++ in_use w.
Proof.
  intros [_ Hal] Hin. rewrite Forall_forall in Hal. exact (Hal _ Hin).
Qed.

Lemma list_remove_app_r (x : pyobj) (l : list pyobj) :
  x ∉ l -> list_remove x (l ++ [x]) = Some l.
Proof.
  induction l as [|y l IH]; intros Hx; simpl.
  - by rewrite decide_True.
  - apply not_elem_of_cons in Hx as [Hne Hx].
    rewrite decide_False by congruence. by rewrite IH.
Qed.

Lemma acquired_app (self : ReusablePool.t) (cs1 cs2 : list call) (w : world) :
  acquired self (cs1 ++ cs2) w =
  acquired self cs1 w ++ acquired self cs2 (final (after_call self) cs1 w).
Proof.
  revert w. induction cs1 as [|c cs1 IH]; intros w; [done|].
  rewrite final_cons. cbn [acquired app]. rewrite IH. destruct c; [|done].
  by destruct (fst (ReusablePool.acquire self w)).
Qed.

(** X1: no sequence of [acquire] and [release] calls, returning or
    raising, loses, duplicates or creates an object: the two lists taken
    together hold the same objects as before (as a multiset), nothing is
    allocated and no method is invoked on any object. *)
Theorem calls_conserve_objects (self : ReusablePool.t) (cs : list call)
  (w : world) :
  free (final (after_call self) cs w) ++ in_use (final (after_call self) cs w)
    ≡ₚ free w ++ in_use w
  /\ next_addr (final (after_call self) cs w) = next_addr w
  /\ invoked (final (after_call self) cs w) = invoked w.
Proof.
  revert w. induction cs as [|c cs IH]; intros w; [done|].
  rewrite final_cons. destruct (IH (after_call self c w)) as (Hp & Hn & Hi).
  rewrite Hp, Hn, Hi, after_call_perm, after_call_next_addr, after_call_invoked.
  done.
Qed.

(** X2: in every state reached from the class definition, the [free] list
    has no duplicates, the [in_use] list has no duplicates, and both hold
    only [Reusable] instances that were allocated before, never [None]. *)
Theorem lists_hold_distinct_instances (ops : list op) :
  Forall (fun w =>
            NoDup (free w) /\ NoDup (in_use w) /\
            forall o, o ∈ free w ++ in_use w ->
                      exists a, o = Reusable_at a /\ a < next_addr w)
         (observed after_op ops class_defined).
Proof.
  eapply Forall_impl.
  - apply observed_well_formed, well_formed_class_defined.
  - intros w [Hnd Hal]. apply NoDup_app in Hnd as (Hf & _ & Hu).
    split; [done|]. split; [done|]. intros o Ho.
    rewrite Forall_forall in Hal. specialize (Hal o Ho).
    destruct o as [|a]; [done|]. by exists a.
Qed.

(** X3: exclusive use.  In a state reached from the class definition, an
    object that is in [in_use] is never returned by an [acquire] of a
    following sequence of calls that does not release it, and it is still
    in [in_use] at the end of that sequence. *)
Theorem leased_object_not_handed_out (ops : list op) (self : ReusablePool.t)
  (cs : list call) (o : pyobj) :
  o ∈ in_use (final after_op ops class_defined) ->
  Release o ∉ cs ->
  (o ∉ acquired self cs (final after_op ops class_defined))
  /\ (o ∈ in_use (final (after_call self) cs
                    (final after_op ops class_defined))).
Proof.
  assert (Hw : well_formed (final after_op ops class_defined))
    by apply final_well_formed, well_formed_class_defined.
  revert Hw. generalize (final after_op ops class_defined). clear ops.
  induction cs as [|c cs IH]; intros w Hw Hin Hrel.
  - split; [apply not_elem_of_nil | done].
  - apply not_elem_of_cons in Hrel as [Hne Hrel]. rewrite final_cons.
    assert (Hin' : o ∈ in_use (after_call self c w)).
    { destruct c as [|r]; simpl.
      - rewrite acquire_eq. destruct (free w); simpl; [done|].
        apply elem_of_app. by left.
      - rewrite release_eq.
        destruct (list_remove r (in_use w)) as [l|] eqn:E; simpl; [|done].
        rewrite (list_remove_Some_perm _ _ _ E) in Hin.
        apply elem_of_cons in Hin as [->|Hin]; [done|done]. }
    destruct (IH (after_call self c w)) as [Hacq Hfin];
      [by apply after_call_well_formed | done | done |].
    split; [|done]. simpl. destruct c as [|r]; [|done].
    rewrite acquire_eq in *. destruct (free w) as [|r l] eqn:E; simpl; [done|].
    apply not_elem_of_cons. split; [|done].
    intros ->. apply (well_formed_disjoint w r Hw); [|done].
    rewrite E. apply list_elem_of_here.
Qed.

Lemma leased_object_not_handed_out_witness :
  (Reusable_at 0 ∉
     acquired (ReusablePool.Instance 2)
       [Acquire; Release (Reusable_at 1); Acquire; Acquire]
       (final after_op [Construct 2; Invoke (ReusablePool.Instance 2) Acquire]
          class_defined))
  /\ (Reusable_at 0 ∈
      in_use (final (after_call (ReusablePool.Instance 2))
                [Acquire; Release (Reusable_at 1); Acquire; Acquire]
                (final after_op
                   [Construct 2; Invoke (ReusablePool.Instance 2) Acquire]
                   class_defined))).
Proof.
  apply (leased_object_not_handed_out
           [Construct 2; Invoke (ReusablePool.Instance 2) Acquire]
           (ReusablePool.Instance 2)
           [Acquire; Release (Reusable_at 1); Acquire; Acquire]
           (Reusable_at 0)).
  - vm_compute. apply list_elem_of_here.
  - intros Hin. repeat (apply elem_of_cons in Hin as [Hin|Hin]; [discriminate|]).
    by apply elem_of_nil in Hin.
Defined.

Lemma acquire_run (self : ReusablePool.t) (k : nat) (w : world) :
  acquired self (replicate k Acquire) w = take k (free w)
  /\ final (after_call self) (replicate k Acquire) w =
     {| free := drop k (free w); in_use := in_use w ++ take k (free w);
        next_addr := next_addr w; invoked := invoked w |}.
Proof.
  revert w. induction k as [|k IH]; intros w.
  - simpl. rewrite app_nil_r. by destruct w.
  - cbn [replicate acquired]. rewrite final_cons.
    destruct (IH (after_call self Acquire w)) as [Ha Hf]. rewrite Ha, Hf.
    simpl. rewrite acquire_eq. destruct (free w) as [|o l] eqn:E; simpl.
    + rewrite E. simpl. by rewrite take_nil, drop_nil.
    + by rewrite <- app_assoc.
Qed.

Lemma release_run (self : ReusablePool.t) (rs : list pyobj) (w : world) :
  rs ⊆+ in_use w ->
  acquired self (Release <$> rs) w = []
  /\ free (final (after_call self) (Release <$> rs) w) = free w ++ rs
  /\ in_use w ≡ₚ rs ++ in_use (final (after_call self) (Release <$> rs) w).
Proof.
  revert w. induction rs as [|r rs IH]; intros w Hsub.
  - simpl. by rewrite app_nil_r.
  - cbn [fmap list_fmap acquired]. rewrite final_cons. simpl after_call.
    assert (Hin : r ∈ in_use w).
    { eapply elem_of_submseteq; [apply list_elem_of_here | exact Hsub]. }
    destruct (list_remove_is_Some _ _ Hin) as [l Hl].
    pose proof (list_remove_Some_perm _ _ _ Hl) as Hperm.
    rewrite release_eq, Hl. simpl.
    match goal with |- context [final _ _ ?w1] => set (w' := w1) end.
    destruct (IH w') as (Ha & Hf & Hu).
    { simpl. rewrite Hperm in Hsub. by apply (submseteq_app_inv_l _ _ [r]). }
    split; [exact Ha|]. split.
    + rewrite Hf. simpl. by rewrite <- app_assoc.
    + rewrite Hperm. simpl in Hu. by rewrite Hu.
Qed.

(** X4: the [free] list is served from the front.  [k] [acquire] calls in
    a row return the first [k] objects of [free] in list order (fewer when
    [free] runs out: the remaining calls raise), leave the rest of [free]
    in place and append the returned objects to [in_use] in that order. *)
Theorem acquire_in_free_order (self : ReusablePool.t) (k : nat) (w : world) :
  acquired self (replicate k Acquire) w = take k (free w)
  /\ free (final (after_call self) (replicate k Acquire) w) = drop k (free w)
  /\ in_use (final (after_call self) (replicate k Acquire) w)
     = in_use w ++ take k (free w).
Proof.
  destruct (acquire_run self k w) as [Ha Hf]. rewrite Ha, Hf. done.
Qed.

(** X5: released objects queue up behind the free ones.  Releasing the
    objects [rs], each of them in [in_use] (as often as it occurs in
    [rs]), appends them to [free] in the order of the calls and takes
    exactly them out of [in_use]; acquiring afterwards until the pool is
    exhausted returns the old free objects first and then [rs], in release
    order. *)
Theorem released_objects_queue_up (self : ReusablePool.t) (rs : list pyobj)
  (w : world) :
  rs ⊆+ in_use w ->
  free (final (after_call self) (Release <$> rs) w) = free w ++ rs
  /\ in_use w ≡ₚ rs ++ in_use (final (after_call self) (Release <$> rs) w)
  /\ acquired self
       ((Release <$> rs) ++ replicate (length (free w ++ rs)) Acquire) w
     = free w ++ rs.
Proof.
  intros Hsub. destruct (release_run self rs w Hsub) as (Ha & Hf & Hu).
  split; [exact Hf|]. split; [exact Hu|].
  rewrite acquired_app, Ha. simpl.
  destruct (acquire_run self (length (free w ++ rs))
              (final (after_call self) (Release <$> rs) w)) as [Hacq _].
  rewrite Hacq, Hf. apply firstn_all.
Qed.

Lemma released_objects_queue_up_witness :
  let self := ReusablePool.Instance 3 in
  let rs := [Reusable_at 2; Reusable_at 0] in
  let w := {| free := [Reusable_at 1];
              in_use := [Reusable_at 0; Reusable_at 2];
              next_addr := 3; invoked := [] |} in
  free (final (after_call self) (Release <$> rs) w) = free w ++ rs
  /\ in_use w ≡ₚ rs ++ in_use (final (after_call self) (Release <$> rs) w)
  /\ acquired self
       ((Release <$> rs) ++ replicate (length (free w ++ rs)) Acquire) w
     = free w ++ rs.
Proof.
  intros self rs w. apply (released_objects_queue_up self rs w).
  simpl. apply Permutation_submseteq, Permutation_swap.
Defined.

(** X6: [acquire] followed by [release] of the object it returned.  When
    the first free object is not already in [in_use], the pair of calls
    returns normally, moves that object from the front of [free] to its
    end and leaves [in_use] and the rest of the state as they were. *)
Theorem acquire_then_release (self : ReusablePool.t) (w : world) (o : pyobj)
  (l : list pyobj) :
  free w = o :: l -> o ∉ in_use w ->
  (do r <- ReusablePool.acquire self; ReusablePool.release self r) w =
  (Return tt, {| free := l ++ [o]; in_use := in_use w;
                 next_addr := next_addr w; invoked := invoked w |}).
Proof.
  intros Hf Hout. unfold bind at 1. rewrite acquire_eq, Hf, release_eq.
  simpl. by rewrite list_remove_app_r.
Qed.

Lemma acquire_then_release_witness :
  (do r <- ReusablePool.acquire (ReusablePool.Instance 3);
   ReusablePool.release (ReusablePool.Instance 3) r)
    {| free := [Reusable_at 1; Reusable_at 2]; in_use := [Reusable_at 0];
       next_addr := 3; invoked := [] |} =
  (Return tt, {| free := [Reusable_at 2] ++ [Reusable_at 1];
                 in_use := [Reusable_at 0];
                 next_addr := 3; invoked := [] |}).
Proof.
  apply (acquire_then_release (ReusablePool.Instance 3)
           {| free := [Reusable_at 1; Reusable_at 2];
              in_use := [Reusable_at 0]; next_addr := 3; invoked := [] |}
           (Reusable_at 1) [Reusable_at 2]); [reflexivity|].
  simpl. intros Hin. apply list_elem_of_singleton in Hin. discriminate.
Defined.

(** * Further properties of the context manager *)

Lemma enter_eq (pool : ReusablePool.t) (w : world) :
  PoolManager.__enter__ (PoolManager.__init__ pool) w =
  match free w with
  | [] => (Raise (Exception "No more objects are available."), w)
  | o :: l =>
      (Return ({| PoolManager.pool := pool; PoolManager.obj := o |}, o),
       {| free := l; in_use := in_use w ++ [o];
          next_addr := next_addr w; invoked := invoked w |})
  end.
Proof.
  unfold PoolManager.__enter__, bind. simpl. rewrite acquire_eq.
  by destruct (free w).
Qed.

Lemma exit_eq (m : PoolManager.t) (exc : option exn) (w : world) :
  PoolManager.__exit__ m exc w =
  match list_remove (PoolManager.obj m) (in_use w) with
  | Some l => (Return PyNone,
               {| free := free w ++ [PoolManager.obj m]; in_use := l;
                  next_addr := next_addr w; invoked := invoked w |})
  | None => (Raise remove_error, w)
  end.
Proof.
  unfold PoolManager.__exit__, bind. rewrite release_eq.
  by destruct (list_remove (PoolManager.obj m) (in_use w)).
Qed.

Lemma with_on_exhausted_pool_inner (pool : ReusablePool.t)
  (body : pyobj -> M unit) (u : list pyobj) (n : nat)
  (iv : list (pyobj * Reusable_method)) :
  with_PoolManager pool body
    {| free := []; in_use := u; next_addr := n; invoked := iv |} =
  (Raise (Exception "No more objects are available."),
   {| free := []; in_use := u; next_addr := n; invoked := iv |}).
Proof. unfold with_PoolManager. by rewrite enter_eq. Qed.

(** X7: a [with] statement on a pool whose [free] list is empty raises
    the exhaustion error of [acquire]; its body is not run, [__exit__] is
    not called and the state is unchanged. *)
Theorem with_on_exhausted_pool (pool : ReusablePool.t)
  (body : pyobj -> M unit) (w : world) :
  ReusablePool.get_free pool w = [] ->
  with_PoolManager pool body w =
  (Raise (Exception "No more objects are available."), w).
Proof.
  unfold ReusablePool.get_free. intros Hf.
  unfold with_PoolManager. by rewrite enter_eq, Hf.
Qed.

Lemma with_on_exhausted_pool_witness :
  with_PoolManager (ReusablePool.Instance 1)
    (fun r => Reusable.test r)
    {| free := []; in_use := [Reusable_at 0]; next_addr := 1; invoked := [] |} =
  (Raise (Exception "No more objects are available."),
   {| free := []; in_use := [Reusable_at 0]; next_addr := 1; invoked := [] |}).
Proof. apply with_on_exhausted_pool. reflexivity. Defined.

(** X8: when the body of a [with] statement has itself released the
    object (so that it is no longer in [in_use] when the body ends),
    [__exit__] fails: the statement raises the [ValueError] of
    [list.remove], which replaces the outcome of the body, even a normal
    one, and the state is the one the body left. *)
Theorem with_after_manual_release (pool : ReusablePool.t)
  (body : pyobj -> M unit) (w w1 w2 : world) (o : pyobj)
  (outcome : result unit) :
  ReusablePool.acquire pool w = (Return o, w1) ->
  body o w1 = (outcome, w2) ->
  o ∉ in_use w2 ->
  with_PoolManager pool body w =
  (Raise (ValueError "list.remove(x): x not in list"), w2).
Proof.
  intros Hacq Hbody Hout. apply list_remove_None in Hout.
  unfold with_PoolManager, PoolManager.__enter__, bind. simpl.
  rewrite Hacq. unfold ret. simpl. rewrite Hbody.
  destruct outcome as [[]|e]; rewrite exit_eq; simpl; by rewrite Hout.
Qed.

Lemma with_after_manual_release_witness :
  let pool := ReusablePool.Instance 1 in
  with_PoolManager pool (fun r => ReusablePool.release pool r)
    {| free := [Reusable_at 0]; in_use := []; next_addr := 1; invoked := [] |} =
  (Raise (ValueError "list.remove(x): x not in list"),
   {| free := [Reusable_at 0]; in_use := []; next_addr := 1; invoked := [] |}).
Proof.
  intros pool.
  apply (with_after_manual_release pool (fun r => ReusablePool.release pool r)
           {| free := [Reusable_at 0]; in_use := []; next_addr := 1;
              invoked := [] |}
           {| free := []; in_use := [Reusable_at 0]; next_addr := 1;
              invoked := [] |}
           {| free := [Reusable_at 0]; in_use := []; next_addr := 1;
              invoked := [] |}
           (Reusable_at 0) (Return tt)); [reflexivity | reflexivity |].
  simpl. apply not_elem_of_nil.
Defined.

(** X9: [__exit__] on a manager that was never entered.  Its [obj] is
    still [None], which no list ever holds, so in every state reached
    from the class definition the call raises [ValueError] and changes
    nothing. *)
Theorem exit_before_enter (ops : list op) (pool : ReusablePool.t)
  (exc : option exn) :
  PoolManager.__exit__ (PoolManager.__init__ pool) exc
    (final after_op ops class_defined) =
  (Raise (ValueError "list.remove(x): x not in list"),
   final after_op ops class_defined).
Proof.
  rewrite exit_eq. simpl.
  assert (Hnone : PyNone ∉ in_use (final after_op ops class_defined)).
  { intros Hin. eapply well_formed_not_None.
    - apply final_well_formed, well_formed_class_defined.
    - apply elem_of_app. right. exact Hin. }
  apply list_remove_None in Hnone. by rewrite Hnone.
Qed.

(** X10: a [with] statement nested in the body of another one on a pool
    with a single free object.  The inner statement raises the exhaustion
    error without running its body; the outer statement still releases its
    object and re-raises, so the whole leaves the state exactly as it
    found it. *)
Theorem nested_with_on_last_object (pool : ReusablePool.t)
  (body : pyobj -> M unit) (w : world) (o : pyobj) :
  free w = [o] -> o ∉ in_use w ->
  with_PoolManager pool (fun _ => with_PoolManager pool body) w =
  (Raise (Exception "No more objects are available."), w).
Proof.
  intros Hf Hout. unfold with_PoolManager at 1. rewrite enter_eq, Hf.
  rewrite with_on_exhausted_pool_inner.
  rewrite exit_eq. simpl. rewrite list_remove_app_r by done. simpl.
  destruct w as [f u n iv]. simpl in *. by rewrite Hf.
Qed.

Lemma nested_with_on_last_object_witness :
  with_PoolManager (ReusablePool.Instance 2)
    (fun _ => with_PoolManager (ReusablePool.Instance 2)
                (fun r => Reusable.test r))
    {| free := [Reusable_at 1]; in_use := [Reusable_at 0];
       next_addr := 2; invoked := [] |} =
  (Raise (Exception "No more objects are available."),
   {| free := [Reusable_at 1]; in_use := [Reusable_at 0];
      next_addr := 2; invoked := [] |}).
Proof.
  apply (nested_with_on_last_object (ReusablePool.Instance 2)
           (fun r => Reusable.test r)
           {| free := [Reusable_at 1]; in_use := [Reusable_at 0];
              next_addr := 2; invoked := [] |} (Reusable_at 1));
    [reflexivity|].
  simpl. intros Hin. apply list_elem_of_singleton in Hin. discriminate.
Defined.

(** ** Round-robin reuse *)

Lemma succ_mod (k n : nat) :
  0 < n ->
  S k mod n = if decide (S (k mod n) = n) then 0 else S (k mod n).
Proof.
  intros Hn. pose proof (Nat.mod_upper_bound k n ltac:(lia)) as Hlt.
  pose proof (Nat.div_mod_eq k n) as Hk.
  case_decide as Hc.
  - replace (S k) with (S (k / n) * n) by lia. apply Nat.Div0.mod_mul.
  - replace (S k) with (S (k mod n) + (k / n) * n) by lia.
    rewrite Nat.Div0.mod_add. apply Nat.mod_small. lia.
Qed.

Lemma rotate_S (k : nat) (l : list pyobj) :
  rotate (S k) l = requeue (rotate k l).
Proof.
  destruct (decide (l = [])) as [->|Hne];
    [unfold rotate; by rewrite !drop_nil, !take_nil|].
  assert (Hn : 0 < length l) by (destruct l; simpl; [done|lia]).
  unfold rotate. rewrite (succ_mod k _ Hn).
  pose proof (Nat.mod_upper_bound k (length l) ltac:(lia)) as Hlt.
  set (m := k mod length l) in *.
  destruct (lookup_lt_is_Some_2 l _ Hlt) as [x Hx].
  rewrite (drop_S l x _ Hx). cbn [app requeue]. rewrite <- app_assoc.
  rewrite <- (take_S_r l _ x Hx). case_decide as Hc.
  - rewrite Hc, drop_all, firstn_all. by rewrite drop_0, app_nil_r.
  - done.
Qed.

Lemma rotate_requeue (k : nat) (l : list pyobj) :
  rotate k (requeue l) = requeue (rotate k l).
Proof.
  induction k as [|k IH].
  - destruct l as [|x l]; [done|]. unfold rotate.
    rewrite !Nat.Div0.mod_0_l. by rewrite !drop_0, !app_nil_r.
  - by rewrite !rotate_S, IH.
Qed.

Lemma length_requeue (l : list pyobj) : length (requeue l) = length l.
Proof. destruct l; simpl; [done|]. rewrite length_app. simpl. lia. Qed.

Lemma rotate_head (k : nat) (l : list pyobj) :
  l <> [] -> rotate k l !! 0 = l !! (k mod length l).
Proof.
  intros Hl. assert (Hn : 0 < length l) by (destruct l; simpl; [done|lia]).
  pose proof (Nat.mod_upper_bound k (length l) ltac:(lia)) as Hlt.
  unfold rotate. rewrite lookup_app_l by (rewrite length_drop; lia).
  rewrite lookup_drop. f_equal. lia.
Qed.

Lemma with_test_block (pool : ReusablePool.t) (w : world) (o : pyobj)
  (l : list pyobj) :
  free w = o :: l -> o ∉ in_use w ->
  with_PoolManager pool Reusable.test w =
  (Return tt, {| free := l ++ [o]; in_use := in_use w;
                 next_addr := next_addr w;
                 invoked := invoked w ++ [(o, test)] |}).
Proof.
  intros Hf Hout. unfold with_PoolManager. rewrite enter_eq, Hf.
  unfold Reusable.test at 1. rewrite exit_eq. simpl.
  by rewrite list_remove_app_r.
Qed.

Lemma requeue_lookup_mod (i : nat) (l : list pyobj) :
  l <> [] ->
  requeue l !! (i mod length l) = l !! (S i mod length l).
Proof.
  intros Hne. rewrite <- (length_requeue l) at 1.
  rewrite <- rotate_head by (destruct l as [|? []]; done).
  rewrite rotate_requeue, <- rotate_S. by apply rotate_head.
Qed.

(** X11: [with] statements that only call [test] go through the free
    objects round robin.  When [free] is not empty and shares no object
    with [in_use], [k] such statements in a row all return normally; the
    [i]-th of them (counting from 0) is handed the object at index
    [i mod len(free)] of the original [free] list, and at the end [free] is
    the original list rotated by [k] while [in_use] is unchanged. *)
Theorem with_blocks_round_robin (pool : ReusablePool.t) (k : nat) (w : world) :
  free w <> [] -> (forall o, o ∈ free w -> o ∉ in_use w) ->
  with_blocks k pool Reusable.test w =
  (Return tt,
   {| free := rotate k (free w); in_use := in_use w;
      next_addr := next_addr w;
      invoked := invoked w ++
                 ((fun i => (free w !!! (i mod length (free w)), test))
                    <$> seq 0 k) |}).
Proof.
  revert w. induction k as [|k IH]; intros w Hne Hdisj.
  - simpl. unfold ret. rewrite app_nil_r. destruct w as [f u n iv]; simpl in *.
    f_equal. f_equal. destruct f as [|x f]; [done|].
    unfold rotate. rewrite Nat.Div0.mod_0_l. by rewrite drop_0, app_nil_r.
  - destruct w as [f u n iv]. cbn [free in_use next_addr invoked] in *.
    destruct f as [|o l]; [done|].
    cbn [with_blocks]. unfold bind at 1.
    rewrite (with_test_block pool
               {| free := o :: l; in_use := u; next_addr := n; invoked := iv |}
               o l eq_refl)
      by (apply Hdisj, list_elem_of_here).
    rewrite IH; cbn [free in_use next_addr invoked].
    + f_equal. f_equal.
      * change (l ++ [o]) with (requeue (o :: l)).
        by rewrite rotate_requeue, <- rotate_S.
      * rewrite <- app_assoc. f_equal. cbn [seq fmap list_fmap app].
        f_equal.
        { by rewrite Nat.Div0.mod_0_l. }
        rewrite <- fmap_S_seq, <- list_fmap_compose.
        apply list_fmap_ext. intros _ i _. cbn [compose]. f_equal.
        rewrite !list_lookup_total_alt.
        change (l ++ [o]) with (requeue (o :: l)).
        by rewrite length_requeue, requeue_lookup_mod.
    + by destruct l.
    + intros r Hr. apply Hdisj.
      apply elem_of_app in Hr as [Hr|Hr%list_elem_of_singleton].
      * by apply list_elem_of_further.
      * subst. apply list_elem_of_here.
Qed.

Lemma with_blocks_round_robin_witness :
  let w := {| free := [Reusable_at 0; Reusable_at 1]; in_use := [];
              next_addr := 2; invoked := [] |} in
  with_blocks 3 (ReusablePool.Instance 2) Reusable.test w =
  (Return tt,
   {| free := rotate 3 (free w); in_use := in_use w;
      next_addr := next_addr w;
      invoked := invoked w ++
                 ((fun i => (free w !!! (i mod length (free w)), test))
                    <$> seq 0 3) |}).
Proof.
  intros w. apply (with_blocks_round_robin (ReusablePool.Instance 2) 3 w).
  - discriminate.
  - intros o _. simpl. apply not_elem_of_nil.
Defined.

(** * The singleton metaclass *)

Section singleton_metaclass.
Context {class object args heap E : Type} `{Countable class}.
Context (KeyError : E).
Context (type_call : class -> args ->
                     @Singleton.state class object heap _ _ ->
                     outcome E object * @Singleton.state class object heap _ _).

Lemma singleton_call_registered (cls : class) (a : args)
  (st : @Singleton.state class object heap _ _) (o : object) :
  Singleton._instances st !! cls = Some o ->
  Singleton.__call__ KeyError type_call cls a st = (Returned o, st).
Proof.
  intros Hl. unfold Singleton.__call__, Singleton.getitem.
  rewrite decide_False; [by rewrite Hl|].
  intros Hn. apply Hn, elem_of_dom. by eexists.
Qed.

(** X12: once a call of a class has returned an object, every later call
    of that class from the state it left, with whatever arguments,
    returns the same object and changes nothing; this holds whatever
    constructing an instance does. *)
Theorem singleton_call_idempotent (cls : class) (a a' : args)
  (st st' : @Singleton.state class object heap _ _) (o : object) :
  Singleton.__call__ KeyError type_call cls a st = (Returned o, st') ->
  Singleton.__call__ KeyError type_call cls a' st' = (Returned o, st').
Proof.
  intros Hcall. apply singleton_call_registered.
  unfold Singleton.__call__, Singleton.getitem in Hcall.
  destruct (decide (cls ∉ dom (Singleton._instances st))) as [Hout|Hin].
  - destruct (type_call cls a st) as [[o1|e] st1]; [|done].
    simpl in Hcall. rewrite lookup_insert_eq in Hcall.
    simplify_eq. simpl. apply lookup_insert_eq.
  - destruct (Singleton._instances st !! cls) as [o1|] eqn:Hl; [|done].
    by simplify_eq.
Qed.

(** X13: when constructing an instance does not touch the dictionary,
    no sequence of calls of classes removes or replaces an entry of
    [_instances]: the instance registered for a class stays the same for
    good. *)
Theorem singleton_instances_only_grow
  (calls : list (class * args)) (st : @Singleton.state class object heap _ _) :
  (forall c a s, Singleton._instances (type_call c a s).2
                 = Singleton._instances s) ->
  Singleton._instances st
    ⊆ Singleton._instances (Singleton.after_calls KeyError type_call calls st).
Proof.
  intros Hframe. revert st. induction calls as [|[c a] calls IH]; intros st.
  - done.
  - unfold Singleton.after_calls. simpl. etrans; [|apply IH]. simpl.
    unfold Singleton.__call__, Singleton.getitem.
    destruct (decide (c ∉ dom (Singleton._instances st))) as [Hout|Hin].
    + specialize (Hframe c a st).
      destruct (type_call c a st) as [[o1|e] st1]; simpl in *.
      * rewrite lookup_insert_eq. simpl. rewrite Hframe.
        apply insert_subseteq. by apply not_elem_of_dom.
      * by rewrite Hframe.
    + by destruct (Singleton._instances st !! c).
Qed.

End singleton_metaclass.

Lemma singleton_call_idempotent_witness :
  let st1 := (Singleton.call_plain Singleton.Logger 0 Singleton.initial).2 in
  Singleton.call_plain Singleton.Logger 3 st1 = (Returned 0, st1).
Proof.
  intros st1.
  apply (singleton_call_idempotent Singleton.KeyError Singleton.plain_call
           Singleton.Logger 0 3 Singleton.initial st1 0).
  vm_compute. reflexivity.
Defined.

Lemma singleton_instances_only_grow_witness :
  Singleton._instances (Singleton.call_plain Singleton.Logger 0
                          Singleton.initial).2
    ⊆ Singleton._instances
        (Singleton.after_calls Singleton.KeyError Singleton.plain_call
           [("Other", 0); (Singleton.Logger, 2); ("Third", 1)]
           (Singleton.call_plain Singleton.Logger 0 Singleton.initial).2).
Proof.
  apply (singleton_instances_only_grow Singleton.KeyError Singleton.plain_call).
  intros c a s. unfold Singleton.plain_call. by destruct (a =? 0).
Defined.

Lemma call_plain_eq (cls : string) (nargs : nat)
  (st : @Singleton.state string nat Singleton.plain_heap _ _) :
  Singleton.call_plain cls nargs st =
  match Singleton._instances st !! cls with
  | Some o => (Returned o, st)
  | None =>
      if (nargs =? 0)%nat then
        (Returned (Singleton.next_object (Singleton.rest st)),
         {| Singleton._instances :=
              <[cls := Singleton.next_object (Singleton.rest st)]>
                (Singleton._instances st);
            Singleton.rest :=
              {| Singleton.next_object :=
                   S (Singleton.next_object (Singleton.rest st));
                 Singleton.printed := Singleton.printed (Singleton.rest st) |} |})
      else (Raised (Singleton.TypeError (cls ++ "() takes no arguments")), st)
  end.
Proof.
  destruct (Singleton._instances st !! cls) as [o|] eqn:Hl.
  - by apply singleton_call_registered.
  - unfold Singleton.call_plain, Singleton.__call__, Singleton.getitem.
    rewrite decide_True by by apply not_elem_of_dom.
    unfold Singleton.plain_call. destruct (nargs =? 0); [|done].
    simpl. by rewrite lookup_insert_eq.
Qed.

Lemma call_plain_one_per_class (c : string) (n : nat)
  (st : @Singleton.state string nat Singleton.plain_heap _ _) :
  Singleton.one_per_class st ->
  Singleton.one_per_class (Singleton.call_plain c n st).2.
Proof.
  intros (Hsz & Hlt & Hinj). rewrite call_plain_eq.
  destruct (Singleton._instances st !! c) as [o|] eqn:Hl; [done|].
  destruct (n =? 0); [|done]. simpl. split; [|split]; simpl.
  - rewrite map_size_insert_None by done. by rewrite Hsz.
  - intros c' o'. rewrite lookup_insert. case_decide.
    + intros [= <-]. lia.
    + intros Hc'. apply Hlt in Hc'. lia.
  - intros c1 c2 o'. rewrite !lookup_insert.
    repeat case_decide; subst.
    + done.
    + intros [= <-] Hc2. apply Hlt in Hc2. lia.
    + intros Hc1 [= <-]. apply Hlt in Hc1. lia.
    + apply Hinj.
Qed.

Lemma after_calls_one_per_class (calls : list (string * nat))
  (st : @Singleton.state string nat Singleton.plain_heap _ _) :
  Singleton.one_per_class st ->
  Singleton.one_per_class
    (Singleton.after_calls Singleton.KeyError Singleton.plain_call calls st).
Proof.
  revert st. induction calls as [|[c n] calls IH]; intros st Hinv; [done|].
  unfold Singleton.after_calls. simpl. apply IH.
  by apply call_plain_one_per_class.
Qed.

(** X14: one instance per class.  With plain classes such as [Logger],
    after any sequence of calls made since the module was loaded, the
    number of objects ever created equals the number of classes in
    [_instances], every registered instance is one of those objects, and
    two different classes never share an instance. *)
Theorem plain_singletons_one_per_class (calls : list (string * nat)) :
  let st := Singleton.after_calls Singleton.KeyError Singleton.plain_call
              calls Singleton.initial in
  Singleton.next_object (Singleton.rest st) = size (Singleton._instances st)
  /\ (forall c o, Singleton._instances st !! c = Some o ->
                  o < Singleton.next_object (Singleton.rest st))
  /\ (forall c1 c2 o, Singleton._instances st !! c1 = Some o ->
                      Singleton._instances st !! c2 = Some o -> c1 = c2).
Proof.
  apply after_calls_one_per_class. split; [|split].
  - simpl. by rewrite map_size_empty.
  - intros c o. simpl. by rewrite lookup_empty.
  - intros c1 c2 o. simpl. by rewrite lookup_empty.
Qed.

(** * The exporter factories *)

Lemma qualities_cases (s : string) :
  s ∈ Factory.Bad.qualities <-> s = "low" \/ s = "high" \/ s = "master".
Proof.
  unfold Factory.Bad.qualities.
  rewrite !elem_of_union, !elem_of_singleton. tauto.
Qed.

Lemma factories_dom (s : string) :
  s ∈ dom Factory.Better.factories <-> s ∈ Factory.Bad.qualities.
Proof.
  rewrite qualities_cases. unfold Factory.Better.factories.
  rewrite !dom_insert_L, dom_singleton_L.
  rewrite !elem_of_union, !elem_of_singleton. tauto.
Qed.

(** The recursion on the input lines is the loop of the source: one
    round is [input], then [return] or [print] and the next round. *)
Lemma read_exporter_unroll (c : Factory.console) :
  Factory.Better.read_exporter c =
  match Factory.input Factory.prompt c with
  | (Raised e, c') => (Raised e, c')
  | (Returned export_quality, c') =>
      if decide (export_quality ∈ dom Factory.Better.factories) then
        match Factory.Better.factories !! export_quality with
        | Some fac => (Returned fac, c')
        | None => (Raised (Factory.KeyError export_quality), c')
        end
      else
        Factory.Better.read_exporter
          (Factory.print (Factory.unknown export_quality) c')
  end.
Proof. destruct c as [[|q rest] out]; reflexivity. Qed.

Lemma read_quality_unroll (c : Factory.console) :
  Factory.Bad.read_quality (Factory.stdin c) (Factory.stdout c) =
  match Factory.input Factory.prompt c with
  | (Raised e, c') => (Raised e, c')
  | (Returned export_quality, c') =>
      if decide (export_quality ∈ Factory.Bad.qualities) then
        (Returned export_quality, c')
      else
        let c'' := Factory.print (Factory.unknown export_quality) c' in
        Factory.Bad.read_quality (Factory.stdin c'') (Factory.stdout c'')
  end.
Proof. destruct c as [[|q rest] out]; reflexivity. Qed.

Lemma read_exporter_loop_skip (bad lines written : list string) :
  Forall (fun s => s ∉ dom Factory.Better.factories) bad ->
  Factory.Better.read_exporter_loop (bad ++ lines) written =
  Factory.Better.read_exporter_loop lines (written ++ Factory.turned_down bad).
Proof.
  intros Hbad. revert written.
  induction Hbad as [|s bad Hs _ IH]; intros written; simpl.
  - by rewrite app_nil_r.
  - rewrite decide_False by done. rewrite IH. f_equal.
    unfold Factory.turned_down. simpl. by rewrite <- !app_assoc.
Qed.

(** X15: [read_exporter] returns the factory that [factories] holds for
    the first input line that is one of its keys.  It reads the lines up
    to and including that one and no further, and writes the prompt and
    the complaint for every line it turned down, then the prompt once
    more. *)
Theorem read_exporter_first_valid (bad : list string) (q : string)
  (rest written : list string) (fac : Factory.Better.factory) :
  Forall (fun s => s ∉ dom Factory.Better.factories) bad ->
  Factory.Better.factories !! q = Some fac ->
  Factory.Better.read_exporter
    {| Factory.stdin := bad ++ q :: rest; Factory.stdout := written |} =
  (Returned fac,
   {| Factory.stdin := rest;
      Factory.stdout := written ++ Factory.turned_down bad
                          ++ [Factory.prompt] |}).
Proof.
  intros Hbad Hq. unfold Factory.Better.read_exporter. simpl.
  rewrite read_exporter_loop_skip by done. simpl.
  rewrite decide_True by (apply elem_of_dom; by eexists).
  by rewrite Hq, <- app_assoc.
Qed.

Lemma read_exporter_first_valid_witness :
  Factory.Better.read_exporter
    {| Factory.stdin := ["medium"; "HIGH"] ++ "high" :: ["low"];
       Factory.stdout := [] |} =
  (Returned Factory.Better.HighQualityExporter,
   {| Factory.stdin := ["low"];
      Factory.stdout := [] ++ Factory.turned_down ["medium"; "HIGH"]
                          ++ [Factory.prompt] |}).
Proof.
  apply read_exporter_first_valid.
  - repeat constructor; intros Hin; apply factories_dom, qualities_cases in Hin;
      by destruct Hin as [?|[?|?]].
  - vm_compute. reflexivity.
Defined.

(** X16: when no input line is a key of [factories], [read_exporter]
    raises [EOFError] (and never [KeyError]): it has read all the lines,
    and written the prompt and the complaint for each of them and then
    the prompt once more. *)
Theorem read_exporter_no_valid (lines written : list string) :
  Forall (fun s => s ∉ dom Factory.Better.factories) lines ->
  Factory.Better.read_exporter
    {| Factory.stdin := lines; Factory.stdout := written |} =
  (Raised Factory.EOFError,
   {| Factory.stdin := [];
      Factory.stdout := written ++ Factory.turned_down lines
                          ++ [Factory.prompt] |}).
Proof.
  intros Hbad. unfold Factory.Better.read_exporter. simpl.
  rewrite <- (app_nil_r lines) at 1.
  rewrite read_exporter_loop_skip by done. simpl. by rewrite <- app_assoc.
Qed.

Lemma read_exporter_no_valid_witness :
  Factory.Better.read_exporter
    {| Factory.stdin := ["medium"; ""]; Factory.stdout := [] |} =
  (Raised Factory.EOFError,
   {| Factory.stdin := [];
      Factory.stdout := [] ++ Factory.turned_down ["medium"; ""]
                          ++ [Factory.prompt] |}).
Proof.
  apply read_exporter_no_valid.
  repeat constructor; intros Hin; apply factories_dom, qualities_cases in Hin;
    by destruct Hin as [?|[?|?]].
Defined.

Lemma read_quality_read_exporter (lines written : list string) :
  match Factory.Bad.read_quality lines written with
  | (Returned q, c) =>
      q ∈ Factory.Bad.qualities /\
      exists fac, Factory.Better.factories !! q = Some fac /\
                  Factory.Better.read_exporter_loop lines written
                    = (Returned fac, c)
  | (Raised e, c) =>
      Factory.Better.read_exporter_loop lines written = (Raised e, c)
  end.
Proof.
  revert written. induction lines as [|q lines IH]; intros written; simpl.
  - done.
  - destruct (decide (q ∈ Factory.Bad.qualities)) as [Hin|Hout].
    + split; [done|]. rewrite decide_True by by apply factories_dom.
      apply factories_dom, elem_of_dom in Hin as [fac Hfac].
      exists fac. by rewrite Hfac.
    + rewrite decide_False by by rewrite factories_dom. apply IH.
Qed.

(** X17: the two [main] functions behave alike.  On every input and for
    every way of rendering the folder, [main] of Bad.py and [main] of
    Better.py have the same outcome, read the same lines and write the
    same output. *)
Theorem mains_agree (str : Factory.path -> string) (c : Factory.console) :
  Factory.Bad.main str c = Factory.Better.main str c.
Proof.
  unfold Factory.Bad.main, Factory.Better.main, Factory.Better.read_exporter.
  pose proof (read_quality_read_exporter (Factory.stdin c) (Factory.stdout c))
    as Hrel.
  destruct (Factory.Bad.read_quality (Factory.stdin c) (Factory.stdout c))
    as [[q|e] c1].
  - destruct Hrel as (Hq & fac & Hfac & ->).
    apply qualities_cases in Hq as [-> | [-> | ->]];
      vm_compute in Hfac; injection Hfac as <-; reflexivity.
  - by rewrite Hrel.
Qed.

Lemma read_exporter_loop_outcome (lines written : list string) :
  (Factory.Better.read_exporter_loop lines written).1 =
  match list_find (fun s => s ∈ dom Factory.Better.factories) lines with
  | Some (_, q) =>
      match Factory.Better.factories !! q with
      | Some fac => Returned fac
      | None => Raised (Factory.KeyError q)
      end
  | None => Raised Factory.EOFError
  end.
Proof.
  revert written. induction lines as [|q lines IH]; intros written; simpl.
  - done.
  - destruct (decide (q ∈ dom Factory.Better.factories)) as [Hin|Hout].
    + by destruct (Factory.Better.factories !! q).
    + rewrite IH.
      by destruct (list_find (fun s => s ∈ dom Factory.Better.factories) lines)
        as [[i s]|].
Qed.

(** X18: [main] of Better.py fails only when the input runs out.  It
    returns normally when some input line is one of [low], [high] and
    [master], and raises [EOFError] otherwise; it raises nothing else. *)
Theorem main_outcome (str : Factory.path -> string) (c : Factory.console) :
  (Factory.Better.main str c).1 =
  if decide (Exists (fun s => s = "low" \/ s = "high" \/ s = "master")
               (Factory.stdin c))
  then Returned tt else Raised Factory.EOFError.
Proof.
  unfold Factory.Better.main, Factory.Better.read_exporter.
  pose proof (read_exporter_loop_outcome (Factory.stdin c) (Factory.stdout c))
    as Hout.
  destruct (Factory.Better.read_exporter_loop (Factory.stdin c)
              (Factory.stdout c)) as [r c1]. simpl in Hout. subst r.
  destruct (list_find (fun s => s ∈ dom Factory.Better.factories)
              (Factory.stdin c)) as [[i q]|] eqn:Hfind.
  - apply list_find_Some in Hfind as (Hi & Hq & _).
    rewrite decide_True.
    + apply elem_of_dom in Hq as [fac Hfac]. by rewrite Hfac.
    + apply Exists_exists. exists q. split.
      * by eapply list_elem_of_lookup_2.
      * by apply qualities_cases, factories_dom.
  - rewrite decide_False; [done|].
    intros Hex. apply Exists_exists in Hex as (q & Hin & Hq).
    eapply list_find_None in Hfind. rewrite Forall_forall in Hfind.
    apply (Hfind q Hin). by apply factories_dom, qualities_cases.
Qed.

(** * Several pools *)

Lemma constructions_eq (sizes : list Z) (w : world) :
  final after_op (Construct <$> sizes) w =
  {| free := free w ++ (Reusable_at <$> seq (next_addr w)
                                          (sum_list (Z.to_nat <$> sizes)));
     in_use := in_use w;
     next_addr := next_addr w + sum_list (Z.to_nat <$> sizes);
     invoked := invoked w |}.
Proof.
  revert w. induction sizes as [|c sizes IH]; intros w.
  - simpl. rewrite app_nil_r, Nat.add_0_r. by destruct w.
  - cbn [fmap list_fmap]. rewrite final_cons. cbn [after_op].
    rewrite IH, init_eq. cbn [snd free in_use next_addr invoked sum_list].
    rewrite <- app_assoc, seq_app, fmap_app, Nat.add_assoc. done.
Qed.

(** X19: pools constructed one after the other pile their objects up in
    one list.  After constructing pools of sizes [sizes] in a row, the
    shared [free] list is the old one followed by as many new objects as
    the positive sizes add up to, in order of creation, [in_use] is
    unchanged, and whichever pool is asked, the next [acquire] returns
    the head of that list: an object of the first non-empty pool when
    [free] was empty. *)
Theorem constructions_pile_up (sizes : list Z) (w : world)
  (self : ReusablePool.t) :
  let w' := final after_op (Construct <$> sizes) w in
  let new := Reusable_at <$> seq (next_addr w) (sum_list (Z.to_nat <$> sizes)) in
  free w' = free w ++ new
  /\ in_use w' = in_use w
  /\ (ReusablePool.acquire self w').1 =
     match free w ++ new with
     | o :: _ => Return o
     | [] => Raise (Exception "No more objects are available.")
     end.
Proof.
  simpl. rewrite constructions_eq. split; [done|]. split; [done|].
  rewrite acquire_eq. simpl.
  by destruct (free w ++ _).
Qed.
